(** * GrepMe: grep for GroupMe -- a shallow embedding of [grepme.py]

    The program talks to three collaborators that are not part of the
    repository: the GroupMe HTTP service (through [requests]), Python's
    [re], [argparse] and [datetime] modules, and the terminal.  They are
    gathered in the class [Environment]; everything else is translated
    function by function from the source.

    Effects are explicit.  A computation transforms a chronological trace of
    events (HTTP requests sent, chunks written to standard output, values
    handed out by a generator) and ends in a value, a raised exception, or
    exhaustion of the fuel that bounds the [while] loops.

    A generator is a function of the body of the [for] loop that consumes
    it: [for x in g(a): body(x)] is [g a body], and each [yield] runs the
    body where it stands, so that the requests of nested generators
    interleave as they do in the program.  The page a [yield] of
    [search_messages] hands out is the page as the loop has rewritten it so
    far. *)

From Stdlib Require Import ZArith String Ascii List Lia Bool.
From stdpp Require Import base tactics option list strings.
Import ListNotations.

Local Open Scope string_scope.
Local Open Scope list_scope.
Local Open Scope nat_scope.

(** ** Data model *)

(** A message dict of the GroupMe API, with the keys the program reads.
    [msg_text] is [None] for JSON [null] (uploads have no text). *)
Record Message := mkMessage {
  msg_id : string;
  msg_text : option string;
  msg_name : string;
  msg_created_at : Z
}.

Definition set_text (m : Message) (t : option string) : Message :=
  {| msg_id := msg_id m; msg_text := t; msg_name := msg_name m;
     msg_created_at := msg_created_at m |}.

(** A dict with the keys ['id'] and ['name']: a group, or the other party of
    a direct conversation. *)
Record Conversation := mkConversation {
  conv_id : string;
  conv_name : string
}.

(** One record of a listing: [/groups] returns groups, [/chats] returns
    records that wrap the other party under the key ['other_user']. *)
Inductive entry :=
| EGroup (g : Conversation)
| EChat (other_user : Conversation).

(** The value under the key ['response'] of a reply, by shape. *)
Inductive json :=
| JNull
| JMessages (messages : list Message)
| JDirect (direct_messages : list Message)
| JList (items : list entry).

(** Values of query-string parameters. *)
Inductive pyarg :=
| ANone
| AInt (z : Z)
| AStr (s : string).

Record request := mkRequest {
  url : string;
  params : list (string * pyarg)
}.

Record response := mkResponse {
  status_code : Z;
  body : json
}.

(** The namespace [argparse] returns. *)
Record Args := mkArgs {
  args_text : list string;
  args_group : option (list string);
  args_list : bool;
  args_show_users : bool;
  args_date : bool;
  args_ignore_case : bool;
  args_after_context : Z;
  args_before_context : Z;
  args_context : option Z;
  args_color : option bool
}.

(** The exceptions a run can end with.  [RuntimeError] carries the reply that
    [get] refused; [ReError] is [re.error]; [SystemExit] carries the exit
    code; [OverflowError], [ValueError] and [OSError] are what
    [datetime.utcfromtimestamp] raises for a timestamp it cannot represent. *)
Inductive exn :=
| RuntimeError (r : response)
| KeyError
| TypeError
| AttributeError
| IndexError
| ReError
| SystemExit (code : Z)
| KeyboardInterrupt
| OverflowError
| ValueError
| OSError.

(** What a run does, in the order it does it: a request sent, a chunk
    written to standard output, and, for the two generators, a value handed
    out by [yield] in [search_messages] or in [get_all_groups]. *)
Inductive event :=
| Fetch (r : request)
| Print (s : string)
| YieldMatch (buffer : list Message) (i : nat)
| YieldGroup (g : entry).

Definition trace := list event.

Definition requests_of (t : trace) : list request :=
  omap (fun e => match e with Fetch r => Some r | _ => None end) t.

Definition stdout_of (t : trace) : list string :=
  omap (fun e => match e with Print s => Some s | _ => None end) t.

Definition matches_of (t : trace) : list (list Message * nat) :=
  omap (fun e => match e with YieldMatch b i => Some (b, i) | _ => None end) t.

Definition groups_of (t : trace) : list entry :=
  omap (fun e => match e with YieldGroup g => Some g | _ => None end) t.

(** ** The collaborators *)

Class Environment := {
  (** a compiled regular expression *)
  pattern : Type;
  (** [login.access_token] *)
  access_token : string;
  (** the service: the reply to the last request of a history of requests *)
  server : list request -> response;
  (** [re.compile(s, flags)]; [None] when [s] is not a regular expression *)
  re_compile : string -> Z -> option pattern;
  (** [p.search(s)]: the span of the first match *)
  re_search : pattern -> string -> option (nat * nat);
  (** a [datetime] object *)
  datetime : Type;
  (** [datetime.utcfromtimestamp(ts)]: the date, or the exception raised for
      a timestamp out of range *)
  utcfromtimestamp : Z -> exn + datetime;
  (** [date.strftime('%c')] *)
  strftime_c : datetime -> string;
  (** [ArgumentParser.parse_args]; [None] when it rejects the command line *)
  parse_args : list string -> option Args;
  (** [os.isatty(fd)] *)
  isatty : Z -> bool
}.

(** What the program passes as [regex]: a compiled pattern, or (in one call
    of [main]) the list of text fragments itself. *)
Inductive pyobj (P : Type) :=
| PyPattern (p : P)
| PyList (l : list string).
Arguments PyPattern {P} p.
Arguments PyList {P} l.

(** ** Computations *)

Inductive outcome (A : Type) :=
| Done (a : A)
| Raise (e : exn)
| OutOfFuel.
Arguments Done {A} a.
Arguments Raise {A} e.
Arguments OutOfFuel {A}.

Definition M (A : Type) := trace -> trace * outcome A.

Definition ret {A} (a : A) : M A := fun t => (t, Done a).

Definition bind {A B} (m : M A) (f : A -> M B) : M B :=
  fun t => match m t with
           | (t', Done a) => f a t'
           | (t', Raise e) => (t', Raise e)
           | (t', OutOfFuel) => (t', OutOfFuel)
           end.

Definition raise {A} (e : exn) : M A := fun t => (t, Raise e).

Definition out_of_fuel {A} : M A := fun t => (t, OutOfFuel).

Definition emit (e : event) : M unit := fun t => (t ++ [e], Done tt).

Notation "x <- m ;; k" := (bind m (fun x => k))
  (at level 100, m at next level, k at level 200, right associativity).
Notation "m ;; k" := (bind m (fun _ => k))
  (at level 100, k at level 200, right associativity).

(** [for x in l: body(x)] *)
Fixpoint foreach {A} (l : list A) (body : A -> M unit) : M unit :=
  match l with
  | [] => ret tt
  | x :: l' => body x ;; foreach l' body
  end.

(** [try: m except KeyboardInterrupt: handler] *)
Definition try_except_KeyboardInterrupt (m handler : M unit) : M unit :=
  fun t => match m t with
           | (t', Raise KeyboardInterrupt) => handler t'
           | r => r
           end.

(** [print(s, end=e)] *)
Definition print (s e : string) : M unit := emit (Print (s +:+ e)).

Definition newline : string := String (ascii_of_nat 10) "".

(** [str(x)] for a value that is a string or [None] *)
Definition str_of (x : option string) : string :=
  match x with Some s => s | None => "None" end.

(** ** Python slices *)

(** How [slice.indices] brings a bound of a slice of step 1 into [0, len]. *)
Definition adjust (x len : Z) : Z :=
  if (x <? 0)%Z then Z.max (x + len) 0 else Z.min x len.

(** [l[start:stop:]] *)
Definition py_slice {A} (l : list A) (start stop : Z) : list A :=
  let len := Z.of_nat (length l) in
  let s := adjust start len in
  let e := adjust stop len in
  take (Z.to_nat (e - s)) (drop (Z.to_nat s) l).

(** [s[:start] + a + s[start:end] + b + s[end:]] for [0 <= start], [0 <= end] *)
Definition wrap_span (s : string) (start end_ : nat) (a b : string) : string :=
  substring 0 start s +:+ a +:+ substring start (end_ - start) s +:+ b
    +:+ substring end_ (String.length s - end_) s.

(** ** The program *)

Definition GROUPME_API : string := "https://api.groupme.com/v3".
Definition ESC : string := String (ascii_of_nat 27) "".
Definition GREEN : string := ESC +:+ "[32m".
Definition RED : string := ESC +:+ "[31m".
Definition PURPLE : string := ESC +:+ "[35m".
Definition RESET : string := ESC +:+ "[0m".

Section Program.
Context `{Env : Environment}.

(** [requests.get(url, params=params)]: the request goes on the trace and the
    service answers it. *)
Definition requests_get (u : string) (ps : list (string * pyarg)) : M response :=
  fun t => let t' := t ++ [Fetch (mkRequest u ps)] in
           (t', Done (server (requests_of t'))).

Definition ok_status (c : Z) : bool := ((200 <=? c) && (c <? 300))%Z.

Definition get (u : string) (ps : list (string * pyarg)) : M json :=
  let ps := ps ++ [("token", AStr access_token)] in
  response <- requests_get (GROUPME_API +:+ u) ps ;;
  if ok_status (status_code response) then ret (body response)
  else if (status_code response =? 304)%Z then ret JNull
  else raise (RuntimeError response).

Definition before_arg (before_id : option string) : pyarg :=
  match before_id with Some i => AStr i | None => ANone end.

Definition get_messages (group : string) (before_id : option string) (limit : Z)
  : M (list Message) :=
  let query := "/groups/" +:+ group +:+ "/messages" in
  response <- get query [("before_id", before_arg before_id); ("limit", AInt limit)] ;;
  match response with
  | JNull => ret []
  | JMessages ms => ret ms
  | JDirect _ => raise KeyError
  | JList _ => raise TypeError
  end.

Definition get_dm (user_id : string) (before_id : option string) (limit : Z)
  : M (list Message) :=
  let query := "/direct_messages" in
  response <- get query [("other_user_id", AStr user_id);
                         ("before_id", before_arg before_id); ("limit", AInt limit)] ;;
  match response with
  | JNull => ret []
  | JDirect ms => ret ms
  | JMessages _ => raise KeyError
  | JList _ => raise TypeError
  end.

(** [regex.search(s)] *)
Definition regex_search (regex : pyobj pattern) (s : string) : M (option (nat * nat)) :=
  match regex with
  | PyPattern p => ret (re_search p s)
  | PyList _ => raise AttributeError
  end.

(** The body of [for i, message in enumerate(buffer)] in [search_messages],
    from index [i] on: [rest] are the messages still to visit, [buffer] is the
    page, which the loop rewrites in place when [interactive].  [k] is the
    consumer's loop body, run at each [yield]. *)
Fixpoint scan_page (regex : pyobj pattern) (interactive : bool)
    (k : list Message -> nat -> M unit)
    (i : nat) (rest buffer : list Message) : M (list Message) :=
  match rest with
  | [] => ret buffer
  | message :: rest' =>
      match msg_text message with
      | None => scan_page regex interactive k (S i) rest' buffer
      | Some txt =>
          result <- regex_search regex txt ;;
          match result with
          | None => scan_page regex interactive k (S i) rest' buffer
          | Some (start, end_) =>
              let buffer :=
                if interactive
                then <[i := set_text message (Some (wrap_span txt start end_ RED RESET))]> buffer
                else buffer in
              emit (YieldMatch buffer i) ;;
              k buffer i ;;
              scan_page regex interactive k (S i) rest' buffer
          end
      end
  end.

(** [while len(buffer): ...] of [search_messages] *)
Fixpoint search_loop (fuel : nat) (regex : pyobj pattern)
    (get_function : string -> option string -> Z -> M (list Message))
    (group : string) (interactive : bool) (k : list Message -> nat -> M unit)
    (buffer : list Message) : M unit :=
  match buffer with
  | [] => ret tt
  | _ =>
      match fuel with
      | O => out_of_fuel
      | S fuel' =>
          buffer <- scan_page regex interactive k 0 buffer buffer ;;
          last <- match last buffer with
                  | Some m => ret (msg_id m)
                  | None => raise IndexError
                  end ;;
          buffer <- get_function group (Some last) 100%Z ;;
          search_loop fuel' regex get_function group interactive k buffer
      end
  end.

Definition search_messages (fuel : nat) (regex : pyobj pattern) (group : string)
    (dm interactive : bool) (k : list Message -> nat -> M unit) : M unit :=
  let get_function := if dm then get_dm else get_messages in
  buffer <- get_function group None 100%Z ;;
  search_loop fuel regex get_function group interactive k buffer.

(** [get_f] of [get_all_groups], for either value of [dm] *)
Definition get_f (dm : bool) (page : pyarg) : M json :=
  if dm then get "/chats" [("page", page); ("per_page", AInt 100)]
  else get "/groups" [("omit", AStr "memberships"); ("per_page", AInt 100); ("page", page)].

(** [group['other_user']], [group['name']], [group['id']] *)
Definition field_other_user (group : entry) : M entry :=
  match group with
  | EChat u => ret (EGroup u)
  | EGroup _ => raise KeyError
  end.

Definition field_name (group : entry) : M string :=
  match group with
  | EGroup g => ret (conv_name g)
  | EChat _ => raise KeyError
  end.

Definition field_id (group : entry) : M string :=
  match group with
  | EGroup g => ret (conv_id g)
  | EChat _ => raise KeyError
  end.

(** [data] of [get_all_groups] *)
Definition data (dm : bool) (group : entry) : M entry :=
  if dm then field_other_user group else ret group.

(** [while response != []: ...] of [get_all_groups].  A reply that is not a
    list differs from [[]]; iterating [None] raises [TypeError].  A reply
    that is a dict is outside what the listing returns: the source would
    iterate over its keys and fail with [TypeError] where a key is first used
    as a record; here the iteration itself raises [TypeError]. *)
Fixpoint groups_loop (fuel : nat) (dm : bool) (k : entry -> M unit)
    (page : Z) (response : json) : M unit :=
  match response with
  | JList [] => ret tt
  | _ =>
      match fuel with
      | O => out_of_fuel
      | S fuel' =>
          match response with
          | JList items =>
              foreach items (fun group =>
                g <- data dm group ;;
                emit (YieldGroup g) ;;
                k g)
          | _ => raise TypeError
          end ;;
          let page := (page + 1)%Z in
          response <- get_f dm (AInt page) ;;
          groups_loop fuel' dm k page response
      end
  end.

Definition get_all_groups (fuel : nat) (dm : bool) (k : entry -> M unit) : M unit :=
  let page := 1%Z in
  response <- get_f dm ANone ;;
  groups_loop fuel dm k page response.

Definition get_group (fuel : nat) (regex : pyobj pattern) (dm : bool) (k : string -> M unit)
  : M unit :=
  get_all_groups fuel dm (fun group =>
    name <- field_name group ;;
    result <- regex_search regex name ;;
    match result with
    | Some _ => i <- field_id group ;; k i
    | None => ret tt
    end).

(** [reversed(buffer[i - after:i + before + 1:])]: the messages that
    [print_message] renders, in the order it renders them. *)
Definition context_window (buffer : list Message) (i : nat) (before after : Z)
  : list Message :=
  reverse (py_slice buffer (Z.of_nat i - after) (Z.of_nat i + before + 1)).

Definition print_message (buffer : list Message) (i : nat)
    (show_users show_date : bool) (before after : Z) (interactive : bool) : M unit :=
  foreach (context_window buffer i before after) (fun message =>
    (if show_date then
       date <- match utcfromtimestamp (msg_created_at message) with
               | inr d => ret d
               | inl e => raise e
               end ;;
       (if interactive then print GREEN "" else ret tt) ;;
       print (strftime_c date) ": "
     else ret tt) ;;
    (if show_users then
       (if interactive then print PURPLE "" else ret tt) ;;
       print (msg_name message) ": "
     else ret tt) ;;
    (if interactive then print RESET "" else ret tt) ;;
    print (str_of (msg_text message)) newline).

Definition IGNORECASE : Z := 2.

(** [re.compile(s, flags=flags)] *)
Definition compile (s : string) (flags : Z) : M pattern :=
  match re_compile s flags with
  | Some p => ret p
  | None => raise ReError
  end.

(** [stdin.fileno()] *)
Definition stdin_fileno : Z := 0.

(** The first loop of [main], from index [i] on: [rest] are the arguments
    still to visit. *)
Fixpoint scan_argv (fuel : nat) (argv : list string) (i : nat) (rest : list string)
  : M unit :=
  match rest with
  | [] => ret tt
  | arg :: rest' =>
      if String.eqb arg "--" then ret tt
      else if (String.eqb arg "--list" || String.eqb arg "-l")
              && ((i =? 0) || negb (String.eqb (nth (i - 1) argv "") "--group"))
      then
        get_all_groups fuel false (fun group =>
          name <- field_name group ;; print name newline) ;;
        raise (SystemExit 0)
      else scan_argv fuel argv (S i) rest'
  end.

Definition main (fuel : nat) (argv : list string) : M unit :=
  scan_argv fuel argv 0 argv ;;
  args <- match parse_args argv with
          | Some a => ret a
          | None => raise (SystemExit 2)
          end ;;
  let group := match args_group args with
               | None => ["ACM"]
               | Some g => g
               end in
  let flags := 0%Z in
  let flags := if args_ignore_case args then Z.lor flags IGNORECASE else flags in
  let after_context := match args_context args with
                       | Some c => c
                       | None => args_after_context args
                       end in
  let before_context := match args_context args with
                        | Some c => c
                        | None => args_before_context args
                        end in
  groups <- compile (String.concat "|" group) flags ;;
  regex <- compile (String.concat "|" (args_text args)) flags ;;
  let color := match args_color args with
               | None => isatty stdin_fileno
               | Some c => c
               end in
  try_except_KeyboardInterrupt
    (get_group fuel (PyPattern groups) false (fun group =>
       search_messages fuel (PyPattern regex) group false color (fun buffer i =>
         print_message buffer i (args_show_users args) (args_date args)
                       before_context after_context color)) ;;
     get_group fuel (PyPattern groups) true (fun user =>
       search_messages fuel (PyList (args_text args)) user true color (fun buffer i =>
         print_message buffer i (args_show_users args) (args_date args)
                       before_context after_context color)))
    (print "" newline).

End Program.

(** ** Test doubles for the collaborators *)

Module Stub.

(** A regular expression without metacharacters other than [|]: its
    alternatives. *)
Fixpoint split_bar (s : string) : list string :=
  match s with
  | EmptyString => [EmptyString]
  | String c s' =>
      if Ascii.eqb c "|"%char then EmptyString :: split_bar s'
      else match split_bar s' with
           | [] => [String c EmptyString]
           | a :: l => String c a :: l
           end
  end.

(** The first alternative that is a prefix of [s], by its length. *)
Fixpoint match_here (alts : list string) (s : string) : option nat :=
  match alts with
  | [] => None
  | a :: alts' =>
      if String.prefix a s then Some (String.length a) else match_here alts' s
  end.

(** The leftmost match in [s], which starts at offset [pos] of the text. *)
Fixpoint search_from (alts : list string) (s : string) (pos : nat) : option (nat * nat) :=
  match match_here alts s with
  | Some n => Some (pos, pos + n)
  | None =>
      match s with
      | EmptyString => None
      | String _ s' => search_from alts s' (S pos)
      end
  end.

(** A service that answers the n-th request with the n-th reply of a script,
    and with an internal error once the script is over. *)
Definition scripted (script : list response) : list request -> response :=
  fun history => nth (length history - 1) script (mkResponse 500 JNull).

Definition env (srv : list request -> response) (parsed : option Args)
    (tty : Z -> bool) : Environment :=
  {| pattern := list string;
     access_token := "secret";
     server := srv;
     re_compile := fun s _ => Some (split_bar s);
     re_search := fun p s => search_from p s 0;
     datetime := Z;
     utcfromtimestamp := fun ts => inr ts;
     strftime_c := fun _ => "Thu Jan  1 00:00:00 1970";
     parse_args := fun _ => parsed;
     isatty := tty |}.

Definition ok (b : json) : response := mkResponse 200 b.

End Stub.

(** ** Specification-side definitions *)

(** The index range the specification gives for the window of a match at
    index [i] of a page of [len] messages. *)
Definition spec_range (len i : nat) (before after : Z) : Z * Z :=
  (Z.max 0 (Z.of_nat i - after), Z.min (Z.of_nat len - 1) (Z.of_nat i + before)).

(** The messages of that index range, in rendering order (oldest first). *)
Definition spec_window (buffer : list Message) (i : nat) (before after : Z)
  : list Message :=
  let '(lo, hi) := spec_range (length buffer) i before after in
  reverse (take (Z.to_nat (hi - lo + 1)) (drop (Z.to_nat lo) buffer)).

(** A reply whose status is neither a success nor "not modified". *)
Definition bad_status (c : Z) : bool :=
  negb ((200 <=? c) && (c <? 300))%Z && negb (c =? 304)%Z.

(** The id of the oldest (last) message of a page. *)
Definition cursor_of (page : list Message) : option string :=
  msg_id <$> last page.

(** The consumer [for _ in search_messages(...): pass]. *)
Definition drain : list Message -> nat -> M unit := fun _ _ => ret tt.

(** A successful reply that carries [page], for either kind of conversation. *)
Definition page_reply (dm : bool) (page : list Message) : response :=
  mkResponse 200 (if dm then JDirect page else JMessages page).

(** A record of a listing, as [/groups] ([dm = false]) or [/chats]
    ([dm = true]) returns a conversation. *)
Definition wrap (dm : bool) (c : Conversation) : entry :=
  if dm then EChat c else EGroup c.

(** A successful reply that carries one page of a listing. *)
Definition list_reply (dm : bool) (cs : list Conversation) : response :=
  mkResponse 200 (JList (wrap dm <$> cs)).

(** The events of one pass over a page of a listing, when the consumer adds
    the events [out c] for the conversation [c]. *)
Definition yield_events (out : Conversation -> trace) (cs : list Conversation) : trace :=
  flat_map (fun c => YieldGroup (EGroup c) :: out c) cs.

(** The command line asks for the listing at index [i]: the argument there
    is [--list] or [-l], it does not follow [--group], and no [--] comes
    before it. *)
Definition list_flag_at (argv : list string) (i : nat) : Prop :=
  (argv !! i = Some "--list" \/ argv !! i = Some "-l") /\
  (i = 0 \/ argv !! (i - 1) <> Some "--group") /\
  (forall j, j < i -> argv !! j <> Some "--").

Section Specification.
Context `{Env : Environment}.

(** The request [get_messages] or [get_dm] sends. *)
Definition fetch_request (dm : bool) (group : string) (before_id : option string)
    (limit : Z) : request :=
  if dm
  then mkRequest (GROUPME_API +:+ "/direct_messages")
         [("other_user_id", AStr group); ("before_id", before_arg before_id);
          ("limit", AInt limit); ("token", AStr access_token)]
  else mkRequest (GROUPME_API +:+ ("/groups/" +:+ group +:+ "/messages"))
         [("before_id", before_arg before_id); ("limit", AInt limit);
          ("token", AStr access_token)].

(** The request [get_f] sends. *)
Definition list_request (dm : bool) (page : pyarg) : request :=
  if dm
  then mkRequest (GROUPME_API +:+ "/chats")
         [("page", page); ("per_page", AInt 100); ("token", AStr access_token)]
  else mkRequest (GROUPME_API +:+ "/groups")
         [("omit", AStr "memberships"); ("per_page", AInt 100); ("page", page);
          ("token", AStr access_token)].

(** The service answers its first requests with the replies of [script], in
    order. *)
Definition replies_in_order (script : list response) : Prop :=
  forall history : list request,
    0 < length history <= length script ->
    script !! (length history - 1) = Some (server history).

(** No request of the trace was answered with a bad status. *)
Definition clean (t : trace) : Prop :=
  forall history : list request,
    history `prefix_of` requests_of t -> history <> [] ->
    bad_status (status_code (server history)) = false.

(** A computation stops at the first request that is answered with a bad
    status: from a clean trace it either stays clean, or it ends by raising
    the error of a request that is the last event of its trace and the only
    one badly answered. *)
Definition fail_fast {A} (m : M A) : Prop :=
  forall t, clean t ->
    clean (m t).1 \/
    exists t1 req,
      (m t).1 = t1 ++ [Fetch req] /\ clean t1 /\
      bad_status (status_code (server (requests_of (m t).1))) = true /\
      (m t).2 = Raise (RuntimeError (server (requests_of (m t).1))).

(** What [get] makes of a reply. *)
Definition get_result (r : response) : outcome json :=
  if ok_status (status_code r) then Done (body r)
  else if (status_code r =? 304)%Z then Done JNull
  else Raise (RuntimeError r).

(** What [get_messages] ([dm = false]) or [get_dm] ([dm = true]) makes of a
    reply. *)
Definition page_result (dm : bool) (r : response) : outcome (list Message) :=
  match get_result r with
  | Done JNull => Done []
  | Done (JMessages ms) => if dm then Raise KeyError else Done ms
  | Done (JDirect ms) => if dm then Done ms else Raise KeyError
  | Done (JList _) => Raise TypeError
  | Raise e => Raise e
  | OutOfFuel => OutOfFuel
  end.

(** What a [yield] hands out for a match at index [j] of the fetched page
    [P]: the message there has a text in which the pattern matches, and the
    page handed out is [P] itself, or, when [interactive], a page of the same
    length in which the message at [j] has its match wrapped in colour codes
    and the later messages are those of [P]. *)
Definition yield_of (regex : pyobj pattern) (interactive : bool) (P b : list Message) (j : nat)
  : Prop :=
  exists p m txt start end_,
    regex = PyPattern p /\ P !! j = Some m /\ msg_text m = Some txt /\
    re_search p txt = Some (start, end_) /\
    length b = length P /\
    (forall j', j < j' -> b !! j' = P !! j') /\
    if interactive
    then b !! j = Some (set_text m (Some (wrap_span txt start end_ RED RESET)))
    else b = P.

(** The state of the loop over a page [P] on entry to index [i]. *)
Definition scanning (interactive : bool) (P : list Message) (i : nat)
    (rest buffer : list Message) : Prop :=
  rest = drop i P /\ drop i buffer = drop i P /\ length buffer = length P /\
  msg_id <$> buffer = msg_id <$> P /\ (interactive = false -> buffer = P).

(** [page] is what a fetch of the run made of the reply to one of the
    requests on the trace. *)
Definition fetched (dm : bool) (t : trace) (page : list Message) : Prop :=
  exists history,
    history `prefix_of` requests_of t /\ page_result dm (server history) = Done page.

(** Every match handed out so far comes from a page fetched so far. *)
Definition yields_from_fetched (regex : pyobj pattern) (dm interactive : bool) (t : trace) : Prop :=
  Forall (fun y => exists P, fetched dm t P /\ yield_of regex interactive P y.1 y.2)
         (matches_of t).

(** The events of the loop of [get_all_groups] over the pages [pages], each
    followed by the request for the next page, from the counter [page] on. *)
Fixpoint listing_trace (dm : bool) (out : Conversation -> trace) (page : Z)
    (pages : list (list Conversation)) : trace :=
  match pages with
  | [] => []
  | cs :: pages' =>
      yield_events out cs ++ [Fetch (list_request dm (AInt (page + 1)))]
        ++ listing_trace dm out (page + 1) pages'
  end.

(** [for group in get_all_groups(): print(group['name'])] and [exit()] *)
Definition list_and_exit (fuel : nat) : M unit :=
  get_all_groups fuel false (fun group =>
    name <- field_name group ;; print name newline) ;;
  raise (SystemExit 0).

End Specification.

(** ** Examples of data *)

Module Examples.

Definition msg (i : string) (t : option string) : Message := mkMessage i t "bob" 0.

Definition page3 : list Message :=
  [msg "5" (Some "foo"); msg "4" (Some "bar"); msg "3" (Some "foo baz")].

End Examples.

(** ** A fake GroupMe service *)

Module Fake.

(** The value of a query-string parameter of a request. *)
Definition param (k : string) (r : request) : option pyarg :=
  snd <$> List.find (fun kv => String.eqb (fst kv) k) (params r).

Definition is_none (a : option pyarg) : bool :=
  match a with Some ANone => true | _ => false end.

(** A service with one page of groups, one page of direct conversations,
    one page of messages in every group and one in every direct
    conversation.  It answers by the url and the parameters of the request
    at hand. *)
Definition groupme (groups chats : list Conversation)
    (group_messages direct_messages : list Message) : list request -> response :=
  fun history =>
    match last history with
    | None => mkResponse 400 JNull
    | Some r =>
        let first_page := is_none (param "page" r) in
        let newest := is_none (param "before_id" r) in
        if String.eqb (url r) (GROUPME_API +:+ "/groups")
        then Stub.ok (JList (if first_page then EGroup <$> groups else []))
        else if String.eqb (url r) (GROUPME_API +:+ "/chats")
        then Stub.ok (JList (if first_page then EChat <$> chats else []))
        else if String.eqb (url r) (GROUPME_API +:+ "/direct_messages")
        then Stub.ok (JDirect (if newest then direct_messages else []))
        else if String.prefix (GROUPME_API +:+ "/groups/") (url r)
        then Stub.ok (JMessages (if newest then group_messages else []))
        else mkResponse 404 JNull
    end.

(** [grepme foo]: what the parser returns for it. *)
Definition argv_foo : list string := ["grepme"; "foo"].

Definition args_foo : Args :=
  {| args_text := ["foo"]; args_group := None; args_list := false;
     args_show_users := true; args_date := false; args_ignore_case := false;
     args_after_context := 0; args_before_context := 0; args_context := None;
     args_color := None |}.

(** [grepme --color foo] *)
Definition args_foo_color : Args :=
  {| args_text := ["foo"]; args_group := None; args_list := false;
     args_show_users := true; args_date := false; args_ignore_case := false;
     args_after_context := 0; args_before_context := 0; args_context := None;
     args_color := Some true |}.

Definition acm : Conversation := mkConversation "42" "ACM".

Definition hello : list Message := [mkMessage "7" (Some "a foo b") "bob" 0].

(** The message is in the group "ACM". *)
Definition group_env (tty : Z -> bool) : Environment :=
  Stub.env (groupme [acm] [] hello []) (Some args_foo) tty.

(** One group, "ACM", and one direct conversation, with "Bob". *)
Definition both_env : Environment :=
  Stub.env (groupme [acm] [mkConversation "43" "Bob"] hello hello) None (fun _ => false).

(** The message is in the direct conversation with "ACM". *)
Definition direct_env (tty : Z -> bool) : Environment :=
  Stub.env (groupme [] [acm] [] hello) (Some args_foo) tty.

End Fake.

(** ** Sources and terminals of the examples *)

Definition not_modified_env : Environment :=
  Stub.env (Stub.scripted [mkResponse 304 JNull]) None (fun _ => false).

(** A source with one page of three messages, then an empty page. *)
Definition one_page_env (dm : bool) : Environment :=
  Stub.env (Stub.scripted (page_reply dm <$> ([Examples.page3] ++ [[]])))
           None (fun _ => false).

(** A page whose first message is an upload without text. *)
Definition upload_page : list Message :=
  [Examples.msg "9" None; Examples.msg "8" (Some "foo"); Examples.msg "7" None].

Definition upload_env : Environment :=
  Stub.env (Stub.scripted (page_reply false <$> ([upload_page] ++ [[]])))
           None (fun _ => false).

Definition full_page : list Conversation := replicate 100 (mkConversation "1" "ACM").

Definition two_pages_env (dm : bool) : Environment :=
  Stub.env (Stub.scripted (list_reply dm <$> [full_page; full_page; []]))
           None (fun _ => false).

(** A source with one page of two groups, then an empty page. *)
Definition two_groups : list Conversation :=
  [mkConversation "1" "ACM"; mkConversation "2" "Chess"].

Definition listing_env : Environment :=
  Stub.env (Stub.scripted (list_reply false <$> ([two_groups] ++ [[]])))
           None (fun _ => false).

(** The listing succeeds; the first fetch of messages is answered with an
    internal error. *)
Definition failing_env : Environment :=
  Stub.env (Stub.scripted [list_reply false [Fake.acm]; mkResponse 500 JNull])
           (Some Fake.args_foo) (fun _ => false).

(** Standard input is a terminal, standard output (descriptor 1) is not. *)
Definition stdin_only : Z -> bool := fun fd => (fd =? 0)%Z.

(** Standard output is a terminal, standard input is not. *)
Definition stdout_only : Z -> bool := fun fd => (fd =? 1)%Z.

(** ** Further specification-side definitions *)

Section Expectations.
Context `{Env : Environment}.

(** The pattern matches in the text of the message. *)
Definition matching (p : pattern) (m : Message) : bool :=
  match msg_text m with
  | Some txt => match re_search p txt with Some _ => true | None => false end
  | None => false
  end.

(** The indices of the matching messages of [rest], counted from [i]. *)
Fixpoint matches_from (p : pattern) (i : nat) (rest : list Message) : list nat :=
  match rest with
  | [] => []
  | m :: rest' =>
      if matching p m then i :: matches_from p (S i) rest'
      else matches_from p (S i) rest'
  end.

(** The message with the span of the match in its text wrapped in [RED] and
    [RESET]; the message itself when it has no text or no match. *)
Definition colour (p : pattern) (m : Message) : Message :=
  match msg_text m with
  | Some txt =>
      match re_search p txt with
      | Some (start, end_) => set_text m (Some (wrap_span txt start end_ RED RESET))
      | None => m
      end
  | None => m
  end.

(** The page [P] with its first [n] messages coloured. *)
Definition colour_upto (p : pattern) (n : nat) (P : list Message) : list Message :=
  (colour p <$> take n P) ++ drop n P.

(** The page the loop holds on entry to index [i]. *)
Definition held (p : pattern) (interactive : bool) (P : list Message) (i : nat)
  : list Message :=
  if interactive then colour_upto p i P else P.

(** The page handed out for a match at index [i] of the fetched page [P]. *)
Definition handed_out (p : pattern) (interactive : bool) (P : list Message) (i : nat)
  : list Message :=
  if interactive then colour_upto p (S i) P else P.

(** The events of the pass over the messages [rest] of the page [P], from
    index [i] on, when the consumer adds the events [out b i] for the page
    [b] handed out at index [i]. *)
Definition scan_events (p : pattern) (interactive : bool)
    (out : list Message -> nat -> trace) (P : list Message) (i : nat)
    (rest : list Message) : trace :=
  flat_map (fun j => YieldMatch (handed_out p interactive P j) j
                       :: out (handed_out p interactive P j) j)
           (matches_from p i rest).

(** The events of the loop of [search_messages] over the pages [pages], each
    followed by the request for the next page. *)
Fixpoint search_trace (p : pattern) (dm : bool) (group : string) (interactive : bool)
    (out : list Message -> nat -> trace) (pages : list (list Message)) : trace :=
  match pages with
  | [] => []
  | P :: pages' =>
      scan_events p interactive out P 0 P
        ++ [Fetch (fetch_request dm group (cursor_of P) 100)]
        ++ search_trace p dm group interactive out pages'
  end.

(** The name of the conversation matches the pattern. *)
Definition name_matches (p : pattern) (c : Conversation) : bool :=
  match re_search p (conv_name c) with Some _ => true | None => false end.

(** Every request a computation adds to the trace satisfies [Q]. *)
Definition sends {A} (Q : request -> Prop) (m : M A) : Prop :=
  forall t, Forall Q (requests_of t) -> Forall Q (requests_of (m t).1).

(** The request goes to the GroupMe API and carries the access token as its
    last parameter. *)
Definition authenticated (r : request) : Prop :=
  String.prefix GROUPME_API (url r) = true /\
  last (params r) = Some ("token", AStr access_token).

(** The environment in which the argument parser returns [args]. *)
Definition with_args (args : Args) : Environment :=
  {| pattern := pattern;
     access_token := access_token;
     server := server;
     re_compile := re_compile;
     re_search := re_search;
     datetime := datetime;
     utcfromtimestamp := utcfromtimestamp;
     strftime_c := strftime_c;
     parse_args := fun _ => Some args;
     isatty := isatty |}.

(** The date of the message can be shown. *)
Definition dated (m : Message) : Prop :=
  exists d, utcfromtimestamp (msg_created_at m) = inr d.

(** The date of the message as [print_message] writes it. *)
Definition date_of (m : Message) : string :=
  match utcfromtimestamp (msg_created_at m) with
  | inr d => strftime_c d
  | inl _ => ""
  end.

(** What [print_message] writes for one message of the window (when its
    date is asked for, one that can be shown). *)
Definition render_line (show_users show_date interactive : bool) (m : Message) : trace :=
  (if show_date
   then (if interactive then [Print (GREEN +:+ "")] else [])
          ++ [Print (date_of m +:+ ": ")]
   else [])
  ++ (if show_users
      then (if interactive then [Print (PURPLE +:+ "")] else [])
             ++ [Print (msg_name m +:+ ": ")]
      else [])
  ++ (if interactive then [Print (RESET +:+ "")] else [])
  ++ [Print (str_of (msg_text m) +:+ newline)].

(** The environment in which [os.isatty] answers as [tty] does. *)
Definition with_tty (tty : Z -> bool) : Environment :=
  {| pattern := pattern;
     access_token := access_token;
     server := server;
     re_compile := re_compile;
     re_search := re_search;
     datetime := datetime;
     utcfromtimestamp := utcfromtimestamp;
     strftime_c := strftime_c;
     parse_args := parse_args;
     isatty := tty |}.

(** The flags [main] compiles its patterns with. *)
Definition flags_of (args : Args) : Z :=
  if args_ignore_case args then Z.lor 0 IGNORECASE else 0%Z.

End Expectations.

(** [-C c] replaced by [-A c -B c]. *)
Definition spell_out_context (args : Args) (c : Z) : Args :=
  {| args_text := args_text args; args_group := args_group args;
     args_list := args_list args; args_show_users := args_show_users args;
     args_date := args_date args; args_ignore_case := args_ignore_case args;
     args_after_context := c; args_before_context := c; args_context := None;
     args_color := args_color args |}.

(** A source that answers every request with the same page of three
    messages. *)
Definition endless_env (dm : bool) : Environment :=
  Stub.env (fun _ => page_reply dm Examples.page3) None (fun _ => false).

(** [grepme "("]: the parser accepts the command line, but the text is not
    a regular expression. *)
Definition args_paren : Args :=
  {| args_text := ["("]; args_group := None; args_list := false;
     args_show_users := true; args_date := false; args_ignore_case := false;
     args_after_context := 0; args_before_context := 0; args_context := None;
     args_color := None |}.

Definition paren_env : Environment :=
  {| pattern := list string;
     access_token := "secret";
     server := Fake.groupme [Fake.acm] [] Fake.hello [];
     re_compile := fun s _ => if String.eqb s "(" then None else Some (Stub.split_bar s);
     re_search := fun p s => Stub.search_from p s 0;
     datetime := Z;
     utcfromtimestamp := fun ts => inr ts;
     strftime_c := fun _ => "Thu Jan  1 00:00:00 1970";
     parse_args := fun _ => Some args_paren;
     isatty := fun _ => false |}.

(** [grepme -C 1 -A 7 foo] *)
Definition args_context_one : Args :=
  {| args_text := ["foo"]; args_group := None; args_list := false;
     args_show_users := true; args_date := false; args_ignore_case := false;
     args_after_context := 7; args_before_context := 0; args_context := Some 1%Z;
     args_color := None |}.

(** A message dated beyond what [datetime.utcfromtimestamp] can represent,
    and an environment in which the conversion raises [OverflowError] from
    the year 10000 on. *)
Definition far_future_message : Message :=
  mkMessage "1" (Some "foo") "bob" 100000000000000000000.

Definition far_future_env : Environment :=
  {| pattern := list string;
     access_token := "secret";
     server := Stub.scripted [];
     re_compile := fun s _ => Some (Stub.split_bar s);
     re_search := fun p s => Stub.search_from p s 0;
     datetime := Z;
     utcfromtimestamp :=
       fun ts => if (ts <? 253402300800)%Z then inr ts else inl OverflowError;
     strftime_c := fun _ => "Thu Jan  1 00:00:00 1970";
     parse_args := fun _ => None;
     isatty := fun _ => false |}.

(** ** Properties of slices and windows *)

Lemma adjust_in_range (x len : Z) : (0 <= x <= len)%Z -> adjust x len = x.
Proof. unfold adjust. intros H. destruct (Z.ltb_spec x 0); lia. Qed.

Lemma adjust_above (x len : Z) : (0 <= len <= x)%Z -> adjust x len = len.
Proof. unfold adjust. intros H. destruct (Z.ltb_spec x 0); lia. Qed.

(** When the match is at least [after] messages into the page, the window
    the program renders is the one the specification describes. *)
Lemma context_window_inside (buffer : list Message) (i : nat) (before after : Z) :
  i < length buffer -> (0 <= before)%Z -> (0 <= after <= Z.of_nat i)%Z ->
  context_window buffer i before after = spec_window buffer i before after.
Proof.
  intros Hi Hb Ha.
  unfold context_window, spec_window, spec_range, py_slice.
  rewrite (adjust_in_range (Z.of_nat i - after)) by lia.
  replace (Z.max 0 (Z.of_nat i - after)) with (Z.of_nat i - after)%Z by lia.
  f_equal. f_equal.
  destruct (Z.le_gt_cases (Z.of_nat i + before + 1) (Z.of_nat (length buffer))) as [Hle|Hgt].
  - rewrite adjust_in_range by lia. lia.
  - rewrite adjust_above by lia. lia.
Qed.

(** C1 (code bug): for a page of three messages with the match at index 0,
    [after = 1] and [before = 0], the specification's range is [0, 0], the
    match itself, but the slice [buffer[-1:1]] the program takes is empty: a
    negative lower bound counts from the end of the page and is not clamped
    to 0.  [print_message] prints nothing for this match. *)
Theorem context_window_wraps_before_page_start :
  spec_range 3 0 0 1 = (0, 0)%Z /\
  spec_window Examples.page3 0 0 1 = [Examples.msg "5" (Some "foo")] /\
  context_window Examples.page3 0 0 1 = [] /\
  @print_message (Stub.env (Stub.scripted []) None (fun _ => false))
     Examples.page3 0 true false 0 1 false [] = ([], Done tt).
Proof. repeat split. Qed.

(** ** Reasoning about computations *)

Lemma requests_of_app (t1 t2 : trace) :
  requests_of (t1 ++ t2) = requests_of t1 ++ requests_of t2.
Proof. apply omap_app. Qed.

Lemma matches_of_app (t1 t2 : trace) :
  matches_of (t1 ++ t2) = matches_of t1 ++ matches_of t2.
Proof. apply omap_app. Qed.

Lemma bind_done {A B} (m : M A) (f : A -> M B) t t' a :
  m t = (t', Done a) -> bind m f t = f a t'.
Proof. unfold bind. intros ->. reflexivity. Qed.

Lemma bind_raise {A B} (m : M A) (f : A -> M B) t t' e :
  m t = (t', Raise e) -> bind m f t = (t', Raise e).
Proof. unfold bind. intros ->. reflexivity. Qed.

Lemma bind_out_of_fuel {A B} (m : M A) (f : A -> M B) t t' :
  m t = (t', OutOfFuel) -> bind m f t = (t', OutOfFuel).
Proof. unfold bind. intros ->. reflexivity. Qed.

Section Fetching.
Context `{Env : Environment}.

Lemma get_eq (u : string) (ps : list (string * pyarg)) (t : trace) :
  get u ps t =
  let t' := t ++ [Fetch (mkRequest (GROUPME_API +:+ u) (ps ++ [("token", AStr access_token)]))] in
  (t', get_result (server (requests_of t'))).
Proof.
  unfold get, get_result, bind, requests_get. cbn zeta.
  destruct (ok_status _); [reflexivity|].
  destruct (_ =? 304)%Z; reflexivity.
Qed.

Lemma get_function_eq (dm : bool) (group : string) (before_id : option string)
    (limit : Z) (t : trace) :
  (if dm then get_dm else get_messages) group before_id limit t =
  let t' := t ++ [Fetch (fetch_request dm group before_id limit)] in
  (t', page_result dm (server (requests_of t'))).
Proof.
  destruct dm; unfold get_dm, get_messages, bind; rewrite get_eq; cbn zeta;
    unfold page_result, fetch_request; cbn [app];
    destruct (get_result _) as [[]| |]; reflexivity.
Qed.

Lemma get_result_not_modified (r : response) :
  status_code r = 304%Z -> get_result r = Done JNull.
Proof. unfold get_result. intros ->. reflexivity. Qed.

Lemma page_result_not_modified (dm : bool) (r : response) :
  status_code r = 304%Z -> page_result dm r = Done [].
Proof.
  intros H. unfold page_result. rewrite (get_result_not_modified _ H). reflexivity.
Qed.

(** C5: a reply "304 not modified" to the request of [get_messages] or of
    [get_dm] makes the fetch return the empty list of messages, as an empty
    page does, without raising; a search whose first fetch is so answered
    ends at once, normally, having sent that one request. *)
Theorem not_modified_is_an_empty_page
    (group : string) (before_id : option string) (limit : Z) (t : trace) :
  (status_code (server (requests_of (get_messages group before_id limit t).1)) = 304%Z ->
   (get_messages group before_id limit t).2 = Done []) /\
  (status_code (server (requests_of (get_dm group before_id limit t).1)) = 304%Z ->
   (get_dm group before_id limit t).2 = Done []) /\
  (forall fuel regex dm interactive k,
     status_code (server (requests_of t ++ [fetch_request dm group None 100])) = 304%Z ->
     search_messages fuel regex group dm interactive k t =
       (t ++ [Fetch (fetch_request dm group None 100)], Done tt)).
Proof.
  split; [|split].
  - rewrite (get_function_eq false). cbn zeta. cbn [fst snd].
    apply page_result_not_modified.
  - rewrite (get_function_eq true). cbn zeta. cbn [fst snd].
    apply page_result_not_modified.
  - intros fuel regex dm interactive k H.
    unfold search_messages. cbn zeta. unfold bind at 1.
    rewrite get_function_eq. cbn zeta.
    rewrite requests_of_app.
    change (requests_of [Fetch ?r]) with [r].
    rewrite (page_result_not_modified _ _ H). destruct fuel; reflexivity.
Qed.

End Fetching.

Lemma not_modified_is_an_empty_page_witness :
  (@get_messages not_modified_env "g" None 100 []).2 = Done [] /\
  (@get_dm not_modified_env "u" None 100 []).2 = Done [] /\
  @search_messages not_modified_env 0 (PyList ["x"]) "g" true true
      (fun _ _ => ret tt) [] =
    ([Fetch (@fetch_request not_modified_env true "g" None 100)], Done tt).
Proof.
  pose proof (@not_modified_is_an_empty_page not_modified_env "g" None 100%Z [])
    as (H1 & _ & H3).
  pose proof (@not_modified_is_an_empty_page not_modified_env "u" None 100%Z [])
    as (_ & H2 & _).
  split; [|split].
  - apply H1. reflexivity.
  - apply H2. reflexivity.
  - apply (H3 0 (PyList ["x"]) true true (fun _ _ => ret tt)).
    reflexivity.
Defined.

(** ** Scanning one page *)

Section Scanning.
Context `{Env : Environment}.

Lemma scanning_start (interactive : bool) (P : list Message) :
  scanning interactive P 0 P P.
Proof. repeat split. Qed.

Lemma scanning_skip interactive P i message rest buffer :
  scanning interactive P i (message :: rest) buffer ->
  P !! i = Some message /\ scanning interactive P (S i) rest buffer.
Proof.
  intros (Hrest & Hdrop & Hlen & Hids & Hni).
  assert (Hlook : P !! i = Some message).
  { rewrite <- (Nat.add_0_r i), <- lookup_drop, <- Hrest. reflexivity. }
  split; [exact Hlook|].
  rewrite (drop_S _ _ _ Hlook) in Hrest. injection Hrest as Hrest.
  repeat split; try assumption.
  replace (S i) with (i + 1) by lia.
  rewrite <- !drop_drop, Hdrop. reflexivity.
Qed.

Lemma scanning_rewrite P i message rest buffer txt :
  scanning true P i (message :: rest) buffer ->
  scanning true P (S i) rest (<[i := set_text message txt]> buffer).
Proof.
  intros H. destruct (scanning_skip _ _ _ _ _ _ H) as (Hlook & Hrest & Hdrop & Hlen & Hids & _).
  repeat split.
  - exact Hrest.
  - rewrite drop_insert_lt by lia. exact Hdrop.
  - rewrite length_insert. exact Hlen.
  - rewrite list_fmap_insert, Hids. apply list_insert_id.
    rewrite list_lookup_fmap, Hlook. reflexivity.
  - discriminate.
Qed.

(** The equations of [scan_page], by the case of the message at hand. *)
Lemma scan_page_no_text regex interactive k i message rest buffer :
  msg_text message = None ->
  scan_page regex interactive k i (message :: rest) buffer
  = scan_page regex interactive k (S i) rest buffer.
Proof. intros H. cbn [scan_page]. rewrite H. reflexivity. Qed.

Lemma scan_page_no_match p interactive k i message rest buffer txt t :
  msg_text message = Some txt -> re_search p txt = None ->
  scan_page (PyPattern p) interactive k i (message :: rest) buffer t
  = scan_page (PyPattern p) interactive k (S i) rest buffer t.
Proof.
  intros H1 H2. cbn [scan_page]. rewrite H1.
  unfold regex_search, bind, ret. rewrite H2. reflexivity.
Qed.

Lemma scan_page_match p interactive k i message rest buffer txt start end_ t :
  msg_text message = Some txt -> re_search p txt = Some (start, end_) ->
  scan_page (PyPattern p) interactive k i (message :: rest) buffer t
  = let buffer2 :=
      if interactive
      then <[i := set_text message (Some (wrap_span txt start end_ RED RESET))]> buffer
      else buffer in
    (k buffer2 i ;; scan_page (PyPattern p) interactive k (S i) rest buffer2)
      (t ++ [YieldMatch buffer2 i]).
Proof.
  intros H1 H2. cbn [scan_page]. rewrite H1.
  unfold regex_search. unfold bind at 1. unfold ret at 1. rewrite H2.
  reflexivity.
Qed.

Lemma scan_page_not_a_pattern l interactive k i message rest buffer txt t :
  msg_text message = Some txt ->
  scan_page (PyList l) interactive k i (message :: rest) buffer t
  = (t, Raise AttributeError).
Proof. intros H1. cbn [scan_page]. rewrite H1. reflexivity. Qed.

Lemma scan_page_spec (regex : pyobj pattern) (interactive : bool) (P : list Message) :
  forall rest i buffer t,
    scanning interactive P i rest buffer ->
    requests_of (scan_page regex interactive drain i rest buffer t).1 = requests_of t /\
    (exists new,
        matches_of (scan_page regex interactive drain i rest buffer t).1
          = matches_of t ++ new /\
        Forall (fun y => yield_of regex interactive P y.1 y.2) new) /\
    (forall p, regex = PyPattern p ->
       exists buffer',
         (scan_page regex interactive drain i rest buffer t).2 = Done buffer' /\
         msg_id <$> buffer' = msg_id <$> P).
Proof.
  induction rest as [|message rest IH]; intros i buffer t Hscan.
  - cbn. split; [reflexivity|]. split.
    + exists []. rewrite app_nil_r. split; [reflexivity|constructor].
    + intros p _. exists buffer. split; [reflexivity|]. apply Hscan.
  - destruct (scanning_skip _ _ _ _ _ _ Hscan) as (Hlook & Hnext).
    destruct (msg_text message) as [txt|] eqn:Htxt.
    2: { rewrite scan_page_no_text by assumption. apply IH, Hnext. }
    destruct regex as [p|l].
    2: { rewrite (scan_page_not_a_pattern _ _ _ _ _ _ _ txt) by assumption.
         cbn. split; [reflexivity|]. split; [|discriminate].
         exists []. rewrite app_nil_r. split; [reflexivity|constructor]. }
    destruct (re_search p txt) as [[start end_]|] eqn:Hsearch.
    2: { rewrite (scan_page_no_match _ _ _ _ _ _ _ txt) by assumption.
         apply IH, Hnext. }
    rewrite (scan_page_match _ _ _ _ _ _ _ txt start end_) by assumption.
    cbv zeta.
    set (buffer2 := if interactive then _ else buffer).
    assert (Hscan2 : scanning interactive P (S i) rest buffer2).
    { subst buffer2. destruct interactive; [|exact Hnext].
      apply scanning_rewrite, Hscan. }
    assert (Hyield : yield_of (PyPattern p) interactive P buffer2 i).
    { exists p, message, txt, start, end_.
      destruct Hscan2 as (_ & Hdrop2 & Hlen2 & _ & Hni2).
      repeat (split; [solve [reflexivity | assumption]|]).
      split.
      - intros j' Hj'. replace j' with (S i + (j' - S i)) by lia.
        rewrite <- !lookup_drop, Hdrop2. reflexivity.
      - subst buffer2. destruct interactive; [|apply Hni2; reflexivity].
        apply list_lookup_insert_eq.
        destruct Hscan as (_ & _ & Hlen & _). rewrite Hlen.
        apply (lookup_lt_Some _ _ _ Hlook). }
    change ((drain buffer2 i;;
             scan_page (PyPattern p) interactive drain (S i) rest buffer2)
              (t ++ [YieldMatch buffer2 i]))
      with (scan_page (PyPattern p) interactive drain (S i) rest buffer2
              (t ++ [YieldMatch buffer2 i])).
    destruct (IH (S i) buffer2 (t ++ [YieldMatch buffer2 i]) Hscan2)
      as (Hreq & (new & Hnew & Hall) & Hdone).
    split; [|split].
    + rewrite Hreq, requests_of_app. cbn. apply app_nil_r.
    + exists ((buffer2, i) :: new). split.
      * rewrite Hnew, matches_of_app. cbn. rewrite <- app_assoc. reflexivity.
      * constructor; assumption.
    + exact Hdone.
Qed.

End Scanning.

(** ** The paginated search *)

Section Searching.
Context `{Env : Environment}.

Lemma fetched_mono dm t t' page :
  requests_of t `prefix_of` requests_of t' -> fetched dm t page -> fetched dm t' page.
Proof.
  intros Hpre (history & Hh & Hres). exists history. split; [|exact Hres].
  etrans; eassumption.
Qed.

Lemma page_result_reply dm page : page_result dm (page_reply dm page) = Done page.
Proof. destruct dm; reflexivity. Qed.

Lemma search_loop_empty fuel regex gf group interactive k :
  search_loop fuel regex gf group interactive k [] = ret tt.
Proof. destruct fuel; reflexivity. Qed.

Lemma search_loop_nonempty fuel regex gf group interactive k buffer :
  buffer <> [] ->
  search_loop (S fuel) regex gf group interactive k buffer
  = (buffer <- scan_page regex interactive k 0 buffer buffer ;;
     last <- match last buffer with
             | Some m => ret (msg_id m)
             | None => raise IndexError
             end ;;
     buffer <- gf group (Some last) 100%Z ;;
     search_loop fuel regex gf group interactive k buffer).
Proof. destruct buffer; [congruence|reflexivity]. Qed.

Lemma search_loop_no_fuel regex gf group interactive k buffer :
  buffer <> [] ->
  search_loop 0 regex gf group interactive k buffer = out_of_fuel.
Proof. destruct buffer; [congruence|reflexivity]. Qed.

Lemma yields_from_fetched_mono regex dm interactive t t' new :
  requests_of t `prefix_of` requests_of t' ->
  matches_of t' = matches_of t ++ new ->
  Forall (fun y => exists P, fetched dm t' P /\ yield_of regex interactive P y.1 y.2) new ->
  yields_from_fetched regex dm interactive t ->
  yields_from_fetched regex dm interactive t'.
Proof.
  unfold yields_from_fetched. intros Hpre -> Hnew Hold.
  apply Forall_app. split; [|exact Hnew].
  eapply Forall_impl; [exact Hold|].
  intros y (P & HP & Hy). exists P. split; [|exact Hy].
  eapply fetched_mono; eassumption.
Qed.

Lemma search_loop_yields regex group dm interactive :
  forall fuel buffer t,
    fetched dm t buffer ->
    yields_from_fetched regex dm interactive t ->
    yields_from_fetched regex dm interactive
      (search_loop fuel regex (if dm then get_dm else get_messages) group
                   interactive drain buffer t).1.
Proof.
  induction fuel as [|fuel IH]; intros buffer t Hbuf Hold;
    (destruct (decide (buffer = [])) as [->|Hne];
     [rewrite search_loop_empty; exact Hold|]).
  { rewrite search_loop_no_fuel by assumption. exact Hold. }
  rewrite search_loop_nonempty by assumption.
  destruct (scan_page_spec regex interactive buffer buffer 0 buffer t
              (scanning_start _ _)) as (Hreq & (new & Hnew & Hall) & _).
  unfold bind at 1.
  destruct (scan_page regex interactive drain 0 buffer buffer t) as [t1 o1].
  cbn [fst snd] in Hreq, Hnew.
  assert (H1 : yields_from_fetched regex dm interactive t1).
  { eapply yields_from_fetched_mono; [| exact Hnew | | exact Hold].
    - rewrite Hreq. reflexivity.
    - eapply Forall_impl; [exact Hall|]. intros y Hy. exists buffer.
      split; [|exact Hy]. eapply fetched_mono; [|exact Hbuf].
      rewrite Hreq. reflexivity. }
  destruct o1 as [buffer1| |]; [|exact H1|exact H1].
  unfold bind at 1.
  destruct (last buffer1) as [m|]; [|exact H1].
  unfold ret at 1. unfold bind at 1.
  rewrite get_function_eq. cbv zeta.
  set (t2 := t1 ++ [Fetch _]).
  assert (Hpre : requests_of t1 `prefix_of` requests_of t2).
  { subst t2. rewrite requests_of_app. apply prefix_app_r. reflexivity. }
  assert (H2 : yields_from_fetched regex dm interactive t2).
  { eapply (yields_from_fetched_mono _ _ _ t1 t2 []); [exact Hpre| |constructor|exact H1].
    subst t2. rewrite matches_of_app. reflexivity. }
  destruct (page_result dm (server (requests_of t2))) as [buffer2| |] eqn:Hres;
    [|exact H2|exact H2].
  apply IH; [|exact H2].
  exists (requests_of t2). split; [reflexivity|exact Hres].
Qed.

Lemma search_messages_yields fuel regex group dm interactive :
  yields_from_fetched regex dm interactive
    (search_messages fuel regex group dm interactive drain []).1.
Proof.
  unfold search_messages. cbv zeta. unfold bind at 1.
  rewrite get_function_eq. cbv zeta.
  set (t1 := [] ++ [Fetch _]).
  assert (H1 : yields_from_fetched regex dm interactive t1) by constructor.
  destruct (page_result dm (server (requests_of t1))) as [buffer| |] eqn:Hres;
    [|exact H1|exact H1].
  apply search_loop_yields; [|exact H1].
  exists (requests_of t1). split; [reflexivity|exact Hres].
Qed.

(** C6: whatever a search hands out as a match is a page and an index at
    which the message has a text: the message there is the message at that
    index of a page the search fetched, which has a text, either as fetched
    (the page handed out is the fetched page) or, with colour, with that text
    rewritten; so a message without text is never handed out as a match.
    Such a message is passed over before the pattern is consulted: a run of
    messages without text is scanned without an event and without an error,
    even where consulting the pattern would raise, and the scan goes on with
    the messages after the run. *)
Theorem absent_text_is_never_a_match (fuel : nat) (regex : pyobj pattern) (group : string)
    (dm interactive : bool) :
  Forall (fun y => exists P m txt,
              fetched dm (search_messages fuel regex group dm interactive drain []).1 P /\
              length y.1 = length P /\
              P !! y.2 = Some m /\ msg_text m = Some txt /\
              (if interactive
               then exists start end_,
                   y.1 !! y.2
                   = Some (set_text m (Some (wrap_span txt start end_ RED RESET)))
               else y.1 = P) /\
              exists m' txt',
                y.1 !! y.2 = Some m' /\ msg_text m' = Some txt' /\
                msg_id m' = msg_id m)
         (matches_of (search_messages fuel regex group dm interactive drain []).1) /\
  (forall k i rest buffer t,
      Forall (fun m => msg_text m = None) rest ->
      scan_page regex interactive k i rest buffer t = (t, Done buffer)) /\
  (forall k i skipped rest buffer,
      Forall (fun m => msg_text m = None) skipped ->
      scan_page regex interactive k i (skipped ++ rest) buffer
      = scan_page regex interactive k (i + length skipped) rest buffer).
Proof.
  split; [|split].
  - eapply Forall_impl; [apply search_messages_yields|].
    intros y (P & HP & (p & m & txt & s & e & _ & Hm & Htxt & _ & Hlen & _ & Hat)).
    exists P, m, txt. repeat (split; [assumption|]).
    destruct interactive.
    + split; [exists s, e; exact Hat|].
      eexists _, _. split; [exact Hat|]. split; reflexivity.
    + split; [exact Hat|]. exists m, txt. rewrite Hat. auto.
  - intros k i rest. revert i.
    induction rest as [|m rest IH]; intros i buffer t Hall; [reflexivity|].
    inversion Hall as [|? ? Hm Hrest]; subst.
    rewrite scan_page_no_text by assumption. apply IH, Hrest.
  - intros k i skipped rest buffer Hall. revert i.
    induction Hall as [|m skipped Hm _ IH]; intros i.
    + cbn. rewrite Nat.add_0_r. reflexivity.
    + cbn [app length]. rewrite scan_page_no_text by exact Hm.
      rewrite IH. f_equal. lia.
Qed.

(** C10: without colour ([interactive = False]) every page a search hands
    out is a page as a fetch returned it; with colour the page handed out
    for a match at index [i] of a fetched page has, at [i], the message of
    that page with its text rewritten to wrap the span of the match in the
    codes [RED] and [RESET], and after [i] the messages of that page. *)
Theorem search_rewrites_pages_only_when_interactive (fuel : nat) (regex : pyobj pattern)
    (group : string) (dm : bool) :
  Forall (fun y => fetched dm (search_messages fuel regex group dm false drain []).1 y.1)
         (matches_of (search_messages fuel regex group dm false drain []).1) /\
  Forall (fun y => exists P p m txt start end_,
              fetched dm (search_messages fuel regex group dm true drain []).1 P /\
              regex = PyPattern p /\
              P !! y.2 = Some m /\ msg_text m = Some txt /\
              re_search p txt = Some (start, end_) /\
              y.1 !! y.2 = Some (set_text m (Some (wrap_span txt start end_ RED RESET))) /\
              length y.1 = length P /\
              forall j, y.2 < j -> y.1 !! j = P !! j)
         (matches_of (search_messages fuel regex group dm true drain []).1).
Proof.
  split.
  - eapply Forall_impl; [apply search_messages_yields|].
    intros y (P & HP & (p & m & txt & s & e & _ & _ & _ & _ & _ & _ & Heq)).
    cbn in Heq. rewrite Heq. exact HP.
  - eapply Forall_impl; [apply search_messages_yields|].
    intros y (P & HP & (p & m & txt & s & e & Hp & Hm & Htxt & Hs & Hlen & Hafter & Hat)).
    exists P, p, m, txt, s, e. auto 10.
Qed.

End Searching.

(** ** Pagination of the search against a scripted source *)

Section Pagination.
Context `{Env : Environment}.

Lemma cursor_of_ids (b P : list Message) :
  msg_id <$> b = msg_id <$> P -> cursor_of b = cursor_of P.
Proof. unfold cursor_of. intros H. rewrite <- !fmap_last, H. reflexivity. Qed.

Lemma cursor_of_nonempty (P : list Message) :
  P <> [] -> exists m, last P = Some m /\ cursor_of P = Some (msg_id m).
Proof.
  intros HP. destruct (last P) as [m|] eqn:Hlast.
  - exists m. unfold cursor_of. rewrite Hlast. auto.
  - apply last_None in Hlast. contradiction.
Qed.

(** The loop, entered with the page of index [n] of a script of pages
    [pages ++ [[]]] after [S n] requests, runs to the end of the script. *)
Lemma search_loop_script (p : pattern) (group : string) (dm interactive : bool)
    (pages : list (list Message)) :
  Forall (fun page => page <> []) pages ->
  replies_in_order (page_reply dm <$> (pages ++ [[]])) ->
  forall fuel n buffer t,
    (pages ++ [[]]) !! n = Some buffer ->
    length (requests_of t) = S n ->
    length pages - n <= fuel ->
    exists t',
      search_loop fuel (PyPattern p) (if dm then get_dm else get_messages) group
                  interactive drain buffer t = (t', Done tt) /\
      requests_of t'
      = requests_of t
        ++ ((fun page => fetch_request dm group (cursor_of page) 100%Z) <$> drop n pages).
Proof.
  intros Hne Hscript.
  induction fuel as [|fuel IH]; intros n buffer t Hn Hlen Hfuel;
    (destruct (decide (buffer = [])) as [->|Hbuf];
     [ rewrite search_loop_empty; exists t; split; [reflexivity|];
       assert (length pages <= n);
       [ destruct (decide (n < length pages)) as [Hlt|]; [|lia];
         rewrite lookup_app_l in Hn by exact Hlt;
         rewrite Forall_lookup in Hne; specialize (Hne _ _ Hn); contradiction
       | rewrite drop_ge by assumption; cbn; rewrite app_nil_r; reflexivity ]
     | ]).
  all: assert (Hpage : pages !! n = Some buffer)
    by (destruct (decide (n < length pages)) as [Hlt|Hge];
        [ rewrite lookup_app_l in Hn by exact Hlt; exact Hn
        | rewrite lookup_app_r in Hn by lia;
          destruct (n - length pages) as [|[|d]]; simplify_eq/=; congruence ]).
  all: pose proof (lookup_lt_Some _ _ _ Hpage) as Hlt.
  { lia. }
  rewrite search_loop_nonempty by assumption.
  destruct (scan_page_spec (PyPattern p) interactive buffer buffer 0 buffer t
              (scanning_start _ _)) as (Hreq & _ & Hdone).
  destruct (Hdone p eq_refl) as (buffer1 & Hres & Hids). clear Hdone.
  destruct (scan_page (PyPattern p) interactive drain 0 buffer buffer t)
    as [t1 o1] eqn:Hscan.
  cbn [fst snd] in Hreq, Hres. subst o1.
  rewrite (bind_done _ _ _ _ _ Hscan).
  destruct (cursor_of_nonempty buffer Hbuf) as (m & Hlast & Hcur).
  pose proof (cursor_of_ids _ _ Hids) as Hcur1. rewrite Hcur in Hcur1.
  unfold cursor_of in Hcur1.
  destruct (last buffer1) as [m1|] eqn:Hlast1; [|discriminate].
  cbn in Hcur1. injection Hcur1 as Hid.
  rewrite (bind_done _ _ t1 t1 (msg_id m1) eq_refl).
  set (t2 := t1 ++ [Fetch (fetch_request dm group (Some (msg_id m1)) 100%Z)]).
  assert (Hreq2 : requests_of t2
                  = requests_of t ++ [fetch_request dm group (cursor_of buffer) 100%Z]).
  { subst t2. rewrite requests_of_app, Hreq, Hcur, Hid. reflexivity. }
  assert (Hnext : exists buffer2, (pages ++ [[]]) !! S n = Some buffer2 /\
                    page_result dm (server (requests_of t2)) = Done buffer2).
  { destruct ((pages ++ [[]]) !! S n) as [buffer2|] eqn:Hb2.
    2: { apply lookup_ge_None in Hb2. rewrite length_app in Hb2. cbn in Hb2. lia. }
    exists buffer2. split; [reflexivity|].
    assert (Hh : length (requests_of t2) = S (S n)).
    { rewrite Hreq2, length_app, Hlen. cbn. lia. }
    specialize (Hscript (requests_of t2)).
    rewrite Hh, length_fmap, length_app in Hscript.
    replace (S (S n) - 1) with (S n) in Hscript by lia.
    rewrite list_lookup_fmap, Hb2 in Hscript.
    specialize (Hscript ltac:(cbn; lia)). cbn in Hscript.
    injection Hscript as <-. apply page_result_reply. }
  destruct Hnext as (buffer2 & Hb2 & Hres2).
  rewrite (bind_done _ _ t1 t2 buffer2).
  2: { rewrite get_function_eq. cbv zeta. fold t2. rewrite Hres2. reflexivity. }
  destruct (IH (S n) buffer2 t2 Hb2) as (t' & Hd & Hr).
  { rewrite Hreq2, length_app, Hlen. cbn. lia. }
  { lia. }
  exists t'. split; [exact Hd|].
  rewrite Hr, Hreq2, <- app_assoc. f_equal.
  rewrite (drop_S _ _ _ Hpage). reflexivity.
Qed.

(** C2 (amended): against a source that returns the pages of [pages], none
    empty, and then an empty page, a search ends normally after exactly
    [length pages + 1] fetches: the first without cursor, and one for each
    page of [pages], with the id of the last message of that page as
    [before_id]; the last of them is the one that returns the empty page. *)
Theorem search_fetches_each_page_and_the_empty_one (p : pattern) (group : string)
    (dm interactive : bool) (pages : list (list Message)) (fuel : nat) :
  Forall (fun page => page <> []) pages ->
  replies_in_order (page_reply dm <$> (pages ++ [[]])) ->
  length pages <= fuel ->
  (search_messages fuel (PyPattern p) group dm interactive drain []).2 = Done tt /\
  requests_of (search_messages fuel (PyPattern p) group dm interactive drain []).1
  = fetch_request dm group None 100%Z
    :: ((fun page => fetch_request dm group (cursor_of page) 100%Z) <$> pages) /\
  length (requests_of (search_messages fuel (PyPattern p) group dm interactive drain []).1)
  = length pages + 1.
Proof.
  intros Hne Hscript Hfuel.
  assert (Hfirst : exists buffer, (pages ++ [[]]) !! 0 = Some buffer /\
            page_result dm (server [fetch_request dm group None 100%Z]) = Done buffer).
  { destruct ((pages ++ [[]]) !! 0) as [buffer|] eqn:Hb.
    2: { apply lookup_ge_None in Hb. rewrite length_app in Hb. cbn in Hb. lia. }
    exists buffer. split; [reflexivity|].
    specialize (Hscript [fetch_request dm group None 100%Z]).
    rewrite length_fmap, length_app in Hscript. cbn in Hscript.
    rewrite list_lookup_fmap, Hb in Hscript.
    specialize (Hscript ltac:(lia)). injection Hscript as <-.
    apply page_result_reply. }
  destruct Hfirst as (buffer & Hb & Hres).
  destruct (search_loop_script p group dm interactive pages Hne Hscript fuel 0 buffer
              [Fetch (fetch_request dm group None 100%Z)] Hb eq_refl)
    as (t' & Hd & Hr); [lia|].
  assert (Hrun : search_messages fuel (PyPattern p) group dm interactive drain []
                 = (t', Done tt)).
  { unfold search_messages. cbv zeta.
    rewrite (bind_done _ _ [] [Fetch (fetch_request dm group None 100%Z)] buffer).
    - exact Hd.
    - rewrite get_function_eq. cbv zeta. cbn [app].
      change (requests_of [Fetch ?r]) with [r]. rewrite Hres. reflexivity. }
  rewrite Hrun. cbn [fst snd].
  assert (Hreq : requests_of t'
                 = fetch_request dm group None 100%Z
                   :: ((fun page => fetch_request dm group (cursor_of page) 100%Z) <$> pages)).
  { rewrite Hr. reflexivity. }
  split; [reflexivity|]. split; [exact Hreq|].
  rewrite Hreq. cbn. rewrite length_fmap. lia.
Qed.

End Pagination.

(** ** Runs against test doubles *)

Lemma scripted_replies_in_order (script : list response) (parsed : option Args)
    (tty : Z -> bool) :
  @replies_in_order (Stub.env (Stub.scripted script) parsed tty) script.
Proof.
  intros history [Hpos Hlen]. cbn. unfold Stub.scripted.
  rewrite nth_lookup.
  destruct (script !! (length history - 1)) eqn:Hl; [reflexivity|].
  apply lookup_ge_None in Hl. lia.
Qed.

Lemma search_fetches_each_page_and_the_empty_one_witness :
  (@search_messages (one_page_env false) 1 (PyPattern ["foo"])
     "g" false false drain []).2 = Done tt /\
  requests_of (@search_messages (one_page_env false) 1
                 (PyPattern ["foo"]) "g" false false drain []).1
  = [@fetch_request (one_page_env false) false "g" None 100;
     @fetch_request (one_page_env false) false "g" (Some "3") 100] /\
  length (requests_of (@search_messages (one_page_env false) 1
                         (PyPattern ["foo"]) "g" false false
                         drain []).1) = 2.
Proof.
  apply (@search_fetches_each_page_and_the_empty_one (one_page_env false)
           ["foo"] "g" false false [Examples.page3] 1).
  - repeat constructor. discriminate.
  - apply scripted_replies_in_order.
  - cbn. lia.
Defined.

(** C2 (counterexample): the source returns one non-empty page and then an
    empty page; the search ends normally and has fetched twice, not once. *)
Lemma search_of_one_page_fetches_twice :
  length [Examples.page3] = 1 /\
  (@search_messages (one_page_env false) 1 (PyPattern ["foo"])
     "g" false false drain []).2 = Done tt /\
  length (requests_of (@search_messages (one_page_env false) 1
                         (PyPattern ["foo"]) "g" false false
                         drain []).1) = 2 /\
  length (requests_of (@search_messages (one_page_env false) 1
                         (PyPattern ["foo"]) "g" false false
                         drain []).1) <> length [Examples.page3].
Proof. repeat split. cbn. discriminate. Qed.

Example search_skips_uploads :
  matches_of (@search_messages upload_env 1 (PyPattern [""]) "g"
                false false drain []).1 = [(upload_page, 1)].
Proof. reflexivity. Qed.

Lemma absent_text_is_never_a_match_witness :
  Forall (fun m => msg_text m = None) [Examples.msg "9" None] /\
  @scan_page upload_env (PyList ["foo"]) true drain 0
     [Examples.msg "9" None] upload_page [] = ([], Done upload_page).
Proof.
  assert (H : Forall (fun m => msg_text m = None) [Examples.msg "9" None])
    by (repeat constructor).
  split; [exact H|].
  exact (proj1 (proj2 (@absent_text_is_never_a_match upload_env 0 (PyList ["foo"])
                         "g" false true))
               drain 0 [Examples.msg "9" None] upload_page [] H).
Defined.

Example search_hands_out_the_fetched_page :
  matches_of (@search_messages (one_page_env true) 1
                (PyPattern ["foo"]) "u" true false drain []).1
  = [(Examples.page3, 0); (Examples.page3, 2)].
Proof. reflexivity. Qed.

Example search_colours_the_matches :
  matches_of (@search_messages (one_page_env true) 1
                (PyPattern ["ba"]) "u" true true drain []).1
  = [([Examples.msg "5" (Some "foo");
       Examples.msg "4" (Some (RED +:+ "ba" +:+ RESET +:+ "r"));
       Examples.msg "3" (Some "foo baz")], 1);
     ([Examples.msg "5" (Some "foo");
       Examples.msg "4" (Some (RED +:+ "ba" +:+ RESET +:+ "r"));
       Examples.msg "3" (Some ("foo " +:+ RED +:+ "ba" +:+ RESET +:+ "z"))], 2)].
Proof. reflexivity. Qed.

(** ** Enumerating conversations against a scripted source *)

Section Enumerating.
Context `{Env : Environment}.

Lemma get_f_eq dm page t :
  get_f dm page t =
  let t' := t ++ [Fetch (list_request dm page)] in
  (t', get_result (server (requests_of t'))).
Proof. destruct dm; unfold get_f; rewrite get_eq; reflexivity. Qed.

Lemma get_result_list_reply dm cs :
  get_result (list_reply dm cs) = Done (JList (wrap dm <$> cs)).
Proof. reflexivity. Qed.

Lemma foreach_page dm (k : entry -> M unit) (out : Conversation -> trace) :
  (forall c t, k (EGroup c) t = (t ++ out c, Done tt)) ->
  forall cs t,
    foreach (wrap dm <$> cs)
            (fun group => g <- data dm group ;; emit (YieldGroup g) ;; k g) t
    = (t ++ yield_events out cs, Done tt).
Proof.
  intros Hk. induction cs as [|c cs IH]; intros t.
  - cbn. rewrite app_nil_r. reflexivity.
  - cbn [fmap list_fmap foreach].
    change (wrap dm <$> cs) with (list_fmap _ _ (wrap dm) cs) in IH.
    rewrite (bind_done _ _ t (t ++ YieldGroup (EGroup c) :: out c) tt).
    + rewrite IH. cbn. rewrite <- app_assoc. reflexivity.
    + assert (Hd : data dm (wrap dm c) = ret (EGroup c)) by (destruct dm; reflexivity).
      rewrite Hd. rewrite (bind_done _ _ t t (EGroup c) eq_refl).
      rewrite (bind_done _ _ t (t ++ [YieldGroup (EGroup c)]) tt eq_refl).
      rewrite Hk, <- app_assoc. reflexivity.
Qed.

Lemma groups_loop_end fuel dm k page :
  groups_loop fuel dm k page (JList []) = ret tt.
Proof. destruct fuel; reflexivity. Qed.

Lemma groups_loop_step fuel dm k page x items :
  groups_loop (S fuel) dm k page (JList (x :: items))
  = (foreach (x :: items)
             (fun group => g <- data dm group ;; emit (YieldGroup g) ;; k g) ;;
     response <- get_f dm (AInt (page + 1)) ;;
     groups_loop fuel dm k (page + 1) response).
Proof. reflexivity. Qed.

Lemma groups_loop_script (dm : bool) (k : entry -> M unit) (out : Conversation -> trace)
    (pages : list (list Conversation)) :
  (forall c t, k (EGroup c) t = (t ++ out c, Done tt)) ->
  (forall c, requests_of (out c) = []) ->
  Forall (fun cs => cs <> []) pages ->
  replies_in_order (list_reply dm <$> (pages ++ [[]])) ->
  forall fuel n cs t,
    (pages ++ [[]]) !! n = Some cs ->
    length (requests_of t) = S n ->
    length pages - n <= fuel ->
    groups_loop fuel dm k (Z.of_nat (S n)) (JList (wrap dm <$> cs)) t
    = (t ++ listing_trace dm out (Z.of_nat (S n)) (drop n pages), Done tt).
Proof.
  intros Hk Hout Hne Hscript.
  assert (Hyield : forall cs, requests_of (yield_events out cs) = []).
  { induction cs as [|c cs IH]; [reflexivity|].
    change (yield_events out (c :: cs))
      with ([YieldGroup (EGroup c)] ++ out c ++ yield_events out cs).
    rewrite !requests_of_app, Hout, IH. reflexivity. }
  induction fuel as [|fuel IH]; intros n cs t Hn Hlen Hfuel;
    (destruct (decide (cs = [])) as [->|Hcs];
     [ change (wrap dm <$> []) with (@nil entry); rewrite groups_loop_end;
       assert (length pages <= n);
       [ destruct (decide (n < length pages)) as [Hlt|]; [|lia];
         rewrite lookup_app_l in Hn by exact Hlt;
         rewrite Forall_lookup in Hne; specialize (Hne _ _ Hn); contradiction
       | rewrite drop_ge by assumption; cbn; rewrite app_nil_r; reflexivity ]
     | ]).
  all: assert (Hpage : pages !! n = Some cs)
    by (destruct (decide (n < length pages)) as [Hlt|Hge];
        [ rewrite lookup_app_l in Hn by exact Hlt; exact Hn
        | rewrite lookup_app_r in Hn by lia;
          destruct (n - length pages) as [|[|d]]; simplify_eq/=; congruence ]).
  all: pose proof (lookup_lt_Some _ _ _ Hpage) as Hlt.
  { lia. }
  destruct cs as [|c cs]; [congruence|].
  change (wrap dm <$> c :: cs) with (wrap dm c :: (wrap dm <$> cs)).
  rewrite groups_loop_step.
  change (wrap dm c :: (wrap dm <$> cs)) with (wrap dm <$> c :: cs).
  rewrite (bind_done _ _ _ _ _ (foreach_page dm k out Hk (c :: cs) t)).
  set (t1 := t ++ yield_events out (c :: cs)).
  set (t2 := t1 ++ [Fetch (list_request dm (AInt (Z.of_nat (S n) + 1)))]).
  assert (Hreq2 : length (requests_of t2) = S (S n)).
  { subst t2 t1. rewrite !requests_of_app, Hyield, app_nil_r, length_app, Hlen.
    cbn. lia. }
  destruct ((pages ++ [[]]) !! S n) as [cs2|] eqn:Hcs2.
  2: { apply lookup_ge_None in Hcs2. rewrite length_app in Hcs2. cbn in Hcs2. lia. }
  assert (Hres : server (requests_of t2) = list_reply dm cs2).
  { specialize (Hscript (requests_of t2)).
    rewrite Hreq2, length_fmap, length_app in Hscript.
    replace (S (S n) - 1) with (S n) in Hscript by lia.
    rewrite list_lookup_fmap, Hcs2 in Hscript.
    specialize (Hscript ltac:(cbn; lia)). cbn in Hscript.
    injection Hscript as <-. reflexivity. }
  rewrite (bind_done _ _ t1 t2 (JList (wrap dm <$> cs2))).
  2: { rewrite get_f_eq. cbv zeta. fold t2. rewrite Hres. reflexivity. }
  replace (Z.of_nat (S n) + 1)%Z with (Z.of_nat (S (S n))) by lia.
  rewrite (IH (S n) cs2 t2 Hcs2 Hreq2) by lia.
  rewrite (drop_S _ _ _ Hpage). cbn [listing_trace].
  subst t2 t1.
  replace (Z.of_nat (S n) + 1)%Z with (Z.of_nat (S (S n))) by lia.
  rewrite <- !app_assoc. reflexivity.
Qed.

Lemma get_all_groups_script (dm : bool) (k : entry -> M unit) (out : Conversation -> trace)
    (pages : list (list Conversation)) (fuel : nat) :
  (forall c t, k (EGroup c) t = (t ++ out c, Done tt)) ->
  (forall c, requests_of (out c) = []) ->
  Forall (fun cs => cs <> []) pages ->
  replies_in_order (list_reply dm <$> (pages ++ [[]])) ->
  length pages <= fuel ->
  get_all_groups fuel dm k []
  = (Fetch (list_request dm ANone) :: listing_trace dm out 1 pages, Done tt).
Proof.
  intros Hk Hout Hne Hscript Hfuel.
  destruct ((pages ++ [[]]) !! 0) as [cs|] eqn:Hcs.
  2: { apply lookup_ge_None in Hcs. rewrite length_app in Hcs. cbn in Hcs. lia. }
  assert (Hres : server [list_request dm ANone] = list_reply dm cs).
  { specialize (Hscript [list_request dm ANone]).
    rewrite length_fmap, length_app in Hscript. cbn in Hscript.
    rewrite list_lookup_fmap, Hcs in Hscript.
    specialize (Hscript ltac:(lia)). injection Hscript as <-. reflexivity. }
  unfold get_all_groups. cbv zeta.
  rewrite (bind_done _ _ [] [Fetch (list_request dm ANone)] (JList (wrap dm <$> cs))).
  2: { rewrite get_f_eq. cbv zeta. cbn [app].
       change (requests_of [Fetch ?r]) with [r]. rewrite Hres. reflexivity. }
  rewrite (groups_loop_script dm k out pages Hk Hout Hne Hscript fuel 0 cs
             [Fetch (list_request dm ANone)] Hcs eq_refl) by lia.
  reflexivity.
Qed.

End Enumerating.

Section Listing.
Context `{Env : Environment}.

Lemma requests_of_yield_events_silent cs :
  requests_of (yield_events (fun _ => []) cs) = [].
Proof. induction cs as [|c cs IH]; [reflexivity|exact IH]. Qed.

Lemma groups_of_yield_events_silent cs :
  groups_of (yield_events (fun _ => []) cs) = EGroup <$> cs.
Proof. induction cs as [|c cs IH]; [reflexivity|]. cbn. f_equal. exact IH. Qed.

Lemma groups_of_app (t1 t2 : trace) :
  groups_of (t1 ++ t2) = groups_of t1 ++ groups_of t2.
Proof. apply omap_app. Qed.

Lemma stdout_of_app (t1 t2 : trace) :
  stdout_of (t1 ++ t2) = stdout_of t1 ++ stdout_of t2.
Proof. apply omap_app. Qed.

(** C7: against a source that returns two pages of 100 records and then an
    empty page, the enumeration ends normally after exactly three fetches,
    each with [per_page = 100]: the first without page number (the first
    page), then page 2 and page 3; it yields the 200 conversations of the two
    pages, in order, and stops at the empty page. *)
Theorem enumeration_of_two_full_pages (dm : bool) (c1 c2 : list Conversation)
    (fuel : nat) :
  length c1 = 100 -> length c2 = 100 ->
  replies_in_order (list_reply dm <$> [c1; c2; []]) ->
  2 <= fuel ->
  (get_all_groups fuel dm (fun _ => ret tt) []).2 = Done tt /\
  requests_of (get_all_groups fuel dm (fun _ => ret tt) []).1
  = [list_request dm ANone; list_request dm (AInt 2); list_request dm (AInt 3)] /\
  groups_of (get_all_groups fuel dm (fun _ => ret tt) []).1 = EGroup <$> (c1 ++ c2) /\
  length (groups_of (get_all_groups fuel dm (fun _ => ret tt) []).1) = 200.
Proof.
  intros H1 H2 Hscript Hfuel.
  rewrite (get_all_groups_script dm (fun _ => ret tt) (fun _ => []) [c1; c2] fuel).
  - cbn [fst snd listing_trace].
    assert (Hg : groups_of
              (Fetch (list_request dm ANone)
                 :: yield_events (fun _ => []) c1 ++ [Fetch (list_request dm (AInt (1 + 1)))]
                 ++ yield_events (fun _ => []) c2
                 ++ [Fetch (list_request dm (AInt (1 + 1 + 1)))] ++ [])
            = EGroup <$> (c1 ++ c2)).
    { change (Fetch ?r :: ?l) with ([Fetch r] ++ l).
      rewrite !groups_of_app, !groups_of_yield_events_silent, fmap_app. cbn.
      rewrite !app_nil_r. reflexivity. }
    split; [reflexivity|]. split; [|split].
    + change (Fetch ?r :: ?l) with ([Fetch r] ++ l).
      rewrite !requests_of_app, !requests_of_yield_events_silent. reflexivity.
    + exact Hg.
    + rewrite Hg, length_fmap, length_app. lia.
  - intros c t. unfold ret. rewrite app_nil_r. reflexivity.
  - reflexivity.
  - repeat constructor; intros ->; discriminate.
  - exact Hscript.
  - cbn. lia.
Qed.

Lemma scan_argv_lists (fuel : nat) (argv : list string) (i : nat) :
  list_flag_at argv i ->
  forall rest j, rest = drop j argv -> j <= i ->
  scan_argv fuel argv j rest = list_and_exit fuel.
Proof.
  intros (Hflag & Hprev & Hdash).
  assert (Hi : i < length argv).
  { destruct Hflag as [H|H]; exact (lookup_lt_Some _ _ _ H). }
  induction rest as [|arg rest IH]; intros j Hrest Hj.
  - symmetry in Hrest. apply drop_nil_inv in Hrest. lia.
  - assert (Harg : argv !! j = Some arg).
    { rewrite <- (Nat.add_0_r j), <- lookup_drop, <- Hrest. reflexivity. }
    rewrite (drop_S _ _ _ Harg) in Hrest. injection Hrest as Hrest.
    cbn [scan_argv].
    destruct (String.eqb_spec arg "--") as [->|Hnd].
    { exfalso. destruct (decide (j = i)) as [->|Hne].
      - destruct Hflag as [H|H]; congruence.
      - apply (Hdash j); [lia|exact Harg]. }
    destruct ((String.eqb arg "--list" || String.eqb arg "-l")
              && ((j =? 0) || negb (String.eqb (nth (j - 1) argv "") "--group")))
      eqn:Hcond; [reflexivity|].
    apply IH; [exact Hrest|].
    destruct (decide (j = i)) as [->|Hne]; [exfalso|lia].
    apply andb_false_iff in Hcond. destruct Hcond as [Hc|Hc].
    + apply orb_false_iff in Hc. destruct Hc as [Hc1 Hc2].
      apply String.eqb_neq in Hc1, Hc2.
      destruct Hflag as [H|H]; congruence.
    + apply orb_false_iff in Hc. destruct Hc as [Hc1 Hc2].
      apply Nat.eqb_neq in Hc1. apply negb_false_iff, String.eqb_eq in Hc2.
      destruct Hprev as [->|Hp]; [congruence|]. apply Hp.
      rewrite nth_lookup in Hc2.
      destruct (argv !! (i - 1)) as [prev|] eqn:Hl; [cbn in Hc2; congruence|].
      apply lookup_ge_None in Hl. lia.
Qed.

Lemma stdout_of_listing (page : Z) (pages : list (list Conversation)) :
  stdout_of (listing_trace false (fun c => [Print (conv_name c +:+ newline)]) page pages)
  = (fun c => conv_name c +:+ newline) <$> concat pages.
Proof.
  revert page. induction pages as [|cs pages IH]; intros page; [reflexivity|].
  cbn [listing_trace concat]. rewrite !stdout_of_app, IH, fmap_app. cbn [stdout_of omap].
  f_equal. clear. induction cs as [|c cs IH]; [reflexivity|].
  cbn. f_equal. exact IH.
Qed.

(** C8 (amended): when [--list] or [-l] occurs on the command line before
    any [--] and not right after [--group], the program does nothing but
    enumerate the groups, print the name of each, and exit with code 0; the
    argument parser is not consulted.  Against a source that returns pages of
    groups and then an empty page, the output is the names of all groups of
    those pages, one per line, and the run ends with exit code 0. *)
Theorem list_flag_lists_groups_and_exits (argv : list string) (i : nat) :
  list_flag_at argv i ->
  (forall fuel t, main fuel argv t = list_and_exit fuel t) /\
  (forall fuel pages,
      Forall (fun cs => cs <> []) pages ->
      replies_in_order (list_reply false <$> (pages ++ [[]])) ->
      length pages <= fuel ->
      (main fuel argv []).2 = Raise (SystemExit 0) /\
      stdout_of (main fuel argv []).1
      = (fun c => conv_name c +:+ newline) <$> concat pages /\
      length (requests_of (main fuel argv []).1) = length pages + 1).
Proof.
  intros Hflag.
  assert (Hmain : forall fuel t, main fuel argv t = list_and_exit fuel t).
  { intros fuel t. unfold main.
    rewrite (scan_argv_lists fuel argv i Hflag argv 0 eq_refl) by lia.
    unfold list_and_exit, bind, raise.
    destruct (get_all_groups _ _ _ t) as [t' [[]| |]]; reflexivity. }
  split; [exact Hmain|].
  intros fuel pages Hne Hscript Hfuel.
  rewrite Hmain. unfold list_and_exit.
  rewrite (bind_done _ _ _ _ _
             (get_all_groups_script false _
                (fun c => [Print (conv_name c +:+ newline)]) pages fuel
                (fun c t => eq_refl) (fun c => eq_refl) Hne Hscript Hfuel)).
  cbn [raise fst snd].
  split; [reflexivity|]. split.
  - change (Fetch ?r :: ?l) with ([Fetch r] ++ l).
    rewrite stdout_of_app, stdout_of_listing. reflexivity.
  - change (Fetch ?r :: ?l) with ([Fetch r] ++ l).
    rewrite requests_of_app, length_app. cbn [requests_of omap length].
    assert (Hl : forall page ps,
               length (requests_of
                         (listing_trace false
                            (fun c => [Print (conv_name c +:+ newline)]) page ps))
               = length ps).
    { clear. intros page ps. revert page.
      induction ps as [|cs ps IH]; intros page; [reflexivity|].
      cbn [listing_trace]. rewrite !requests_of_app, !length_app, IH.
      assert (Hy : requests_of
                     (yield_events (fun c => [Print (conv_name c +:+ newline)]) cs) = []).
      { clear. induction cs as [|c cs IH]; [reflexivity|exact IH]. }
      rewrite Hy. reflexivity. }
    rewrite Hl. cbn. lia.
Qed.

End Listing.

(** ** Runs of the enumeration and of the listing *)

Lemma enumeration_of_two_full_pages_witness :
  (@get_all_groups (two_pages_env true) 2 true (fun _ => ret tt) []).2 = Done tt /\
  requests_of (@get_all_groups (two_pages_env true) 2 true (fun _ => ret tt) []).1
  = [@list_request (two_pages_env true) true ANone;
     @list_request (two_pages_env true) true (AInt 2);
     @list_request (two_pages_env true) true (AInt 3)] /\
  groups_of (@get_all_groups (two_pages_env true) 2 true (fun _ => ret tt) []).1
  = EGroup <$> (full_page ++ full_page) /\
  length (groups_of (@get_all_groups (two_pages_env true) 2 true (fun _ => ret tt) []).1)
  = 200.
Proof.
  apply (@enumeration_of_two_full_pages (two_pages_env true) true full_page full_page 2).
  - reflexivity.
  - reflexivity.
  - apply scripted_replies_in_order.
  - lia.
Defined.

Lemma list_flag_lists_groups_and_exits_witness :
  list_flag_at ["grepme"; "-q"; "--list"] 2 /\
  (@main listing_env 1 ["grepme"; "-q"; "--list"] []).2 = Raise (SystemExit 0) /\
  stdout_of (@main listing_env 1 ["grepme"; "-q"; "--list"] []).1
  = ["ACM" +:+ newline; "Chess" +:+ newline] /\
  length (requests_of (@main listing_env 1 ["grepme"; "-q"; "--list"] []).1) = 2.
Proof.
  assert (H : list_flag_at ["grepme"; "-q"; "--list"] 2).
  { split; [left; reflexivity|]. split; [right; discriminate|].
    intros [|[|j]] Hj; try discriminate. lia. }
  split; [exact H|].
  apply (proj2 (@list_flag_lists_groups_and_exits listing_env
                  ["grepme"; "-q"; "--list"] 2 H) 1 [two_groups]).
  - repeat constructor. discriminate.
  - apply scripted_replies_in_order.
  - cbn. lia.
Defined.

(** C8 (counterexample): [-l] is on the command line, right after
    [--group].  The program does not list anything: it sends no request,
    prints nothing, and goes on to the argument parser, which here rejects
    the command line, so that the run ends with exit code 2.  And where
    [-l] does list, for an account with the group "ACM" and a direct
    conversation with "Bob", the output is the name of the group alone. *)
Lemma list_flag_after_group_does_not_list :
  In "-l" ["grepme"; "--group"; "-l"; "foo"] /\
  @main listing_env 1 ["grepme"; "--group"; "-l"; "foo"] [] = ([], Raise (SystemExit 2)) /\
  (@main listing_env 1 ["grepme"; "--group"; "-l"; "foo"] []).2 <> Raise (SystemExit 0) /\
  (@main Fake.both_env 1 ["grepme"; "-l"] []).2 = Raise (SystemExit 0) /\
  stdout_of (@main Fake.both_env 1 ["grepme"; "-l"] []).1 = ["ACM" +:+ newline].
Proof.
  split; [cbn; tauto|]. split; [reflexivity|]. split; [discriminate|].
  split; reflexivity.
Qed.

(** ** Failing fetches *)

Lemma prefix_snoc_cases {A} (l1 l2 : list A) (x : A) :
  l1 `prefix_of` l2 ++ [x] -> l1 `prefix_of` l2 \/ l1 = l2 ++ [x].
Proof.
  intros [k Hk]. destruct k as [|y k _] using rev_ind.
  - right. rewrite app_nil_r in Hk. congruence.
  - left. rewrite app_assoc in Hk. apply app_inj_tail in Hk as [-> _].
    apply prefix_app_r. reflexivity.
Qed.

Section FailFast.
Context `{Env : Environment}.

Lemma clean_nil : clean [].
Proof.
  intros history Hpre Hne. apply prefix_nil_inv in Hpre. contradiction.
Qed.

Lemma clean_same (t t' : trace) : requests_of t' = requests_of t -> clean t -> clean t'.
Proof. unfold clean. intros ->. auto. Qed.

Lemma fail_fast_silent {A} (m : M A) :
  (forall t, requests_of (m t).1 = requests_of t) -> fail_fast m.
Proof. intros H t Ht. left. eapply clean_same; [apply H|exact Ht]. Qed.

Lemma fail_fast_ret {A} (a : A) : fail_fast (ret a).
Proof. apply fail_fast_silent. reflexivity. Qed.

Lemma fail_fast_raise {A} (e : exn) : fail_fast (raise (A:=A) e).
Proof. apply fail_fast_silent. reflexivity. Qed.

Lemma fail_fast_out_of_fuel {A} : fail_fast (out_of_fuel (A:=A)).
Proof. apply fail_fast_silent. reflexivity. Qed.

Lemma fail_fast_print (s e : string) : fail_fast (print s e).
Proof.
  apply fail_fast_silent. intros t. cbn. rewrite requests_of_app. apply app_nil_r.
Qed.

Lemma fail_fast_yield_match b i : fail_fast (emit (YieldMatch b i)).
Proof.
  apply fail_fast_silent. intros t. cbn. rewrite requests_of_app. apply app_nil_r.
Qed.

Lemma fail_fast_yield_group g : fail_fast (emit (YieldGroup g)).
Proof.
  apply fail_fast_silent. intros t. cbn. rewrite requests_of_app. apply app_nil_r.
Qed.

Lemma fail_fast_bind {A B} (m : M A) (f : A -> M B) :
  fail_fast m -> (forall a, fail_fast (f a)) -> fail_fast (bind m f).
Proof.
  intros Hm Hf t Ht. specialize (Hm t Ht). unfold bind.
  destruct (m t) as [t' [a|e|]]; cbn [fst snd] in *.
  - destruct Hm as [Hc|(t1 & req & _ & _ & _ & Hr)]; [|discriminate].
    apply Hf, Hc.
  - destruct Hm as [Hc|(t1 & req & Ht1 & Hc1 & Hbad & Hr)]; [left; exact Hc|].
    right. exists t1, req. repeat split; try assumption. congruence.
  - destruct Hm as [Hc|(t1 & req & _ & _ & _ & Hr)]; [left; exact Hc|discriminate].
Qed.

Lemma bad_status_result (r : response) :
  bad_status (status_code r) = true -> get_result r = Raise (RuntimeError r).
Proof.
  unfold bad_status, get_result, ok_status. intros H.
  apply andb_true_iff in H as [H1 H2]. apply negb_true_iff in H1, H2.
  rewrite H1, H2. reflexivity.
Qed.

Lemma fail_fast_get u ps : fail_fast (get u ps).
Proof.
  intros t Ht. rewrite get_eq. cbv zeta. cbn [fst snd].
  match goal with |- context [Fetch ?x] => set (r := x) end.
  destruct (bad_status (status_code (server (requests_of (t ++ [Fetch r]))))) eqn:Hbad.
  - right. exists t, r. repeat split; try assumption.
    apply bad_status_result, Hbad.
  - left. intros history Hpre Hne. rewrite requests_of_app in Hpre.
    apply prefix_snoc_cases in Hpre as [Hpre| ->].
    + apply Ht; assumption.
    + rewrite requests_of_app in Hbad. exact Hbad.
Qed.

Lemma fail_fast_get_function (dm : bool) (group : string) (before_id : option string)
    (limit : Z) :
  fail_fast (A:=list Message) ((if dm then get_dm else get_messages) group before_id limit).
Proof.
  destruct dm; unfold get_dm, get_messages; cbv zeta;
    (apply fail_fast_bind; [apply fail_fast_get|]);
    intros []; first [apply fail_fast_ret | apply fail_fast_raise].
Qed.

Lemma fail_fast_foreach {A} (l : list A) (body : A -> M unit) :
  (forall x, fail_fast (body x)) -> fail_fast (foreach l body).
Proof.
  intros Hb. induction l as [|x l IH]; cbn [foreach].
  - apply fail_fast_ret.
  - apply fail_fast_bind; [apply Hb|intros _; exact IH].
Qed.

Lemma fail_fast_regex_search regex s : fail_fast (regex_search regex s).
Proof. destruct regex; [apply fail_fast_ret|apply fail_fast_raise]. Qed.

Lemma fail_fast_scan_page regex interactive k :
  (forall b i, fail_fast (k b i)) ->
  forall rest i buffer, fail_fast (scan_page regex interactive k i rest buffer).
Proof.
  intros Hk. induction rest as [|message rest IH]; intros i buffer; cbn [scan_page].
  - apply fail_fast_ret.
  - destruct (msg_text message) as [txt|]; [|apply IH].
    apply fail_fast_bind; [apply fail_fast_regex_search|].
    intros [[start end_]|]; [|apply IH].
    apply fail_fast_bind; [apply fail_fast_yield_match|]. intros _.
    apply fail_fast_bind; [apply Hk|]. intros _. apply IH.
Qed.

Lemma fail_fast_search_messages fuel regex group dm interactive k :
  (forall b i, fail_fast (k b i)) ->
  fail_fast (search_messages fuel regex group dm interactive k).
Proof.
  intros Hk. unfold search_messages. cbv zeta.
  apply fail_fast_bind; [apply fail_fast_get_function|].
  induction fuel as [|fuel IH]; intros [|m buffer]; cbn [search_loop];
    try apply fail_fast_ret; try apply fail_fast_out_of_fuel.
  apply fail_fast_bind; [apply fail_fast_scan_page, Hk|]. intros buffer1.
  apply fail_fast_bind.
  { destruct (last buffer1); [apply fail_fast_ret|apply fail_fast_raise]. }
  intros last_id.
  apply fail_fast_bind; [apply fail_fast_get_function|]. exact IH.
Qed.

Lemma fail_fast_get_f dm page : fail_fast (get_f dm page).
Proof. destruct dm; apply fail_fast_get. Qed.

Lemma fail_fast_field_name g : fail_fast (field_name g).
Proof. destruct g; [apply fail_fast_ret|apply fail_fast_raise]. Qed.

Lemma fail_fast_field_id g : fail_fast (field_id g).
Proof. destruct g; [apply fail_fast_ret|apply fail_fast_raise]. Qed.

Lemma fail_fast_data dm g : fail_fast (data dm g).
Proof.
  destruct dm; [|apply fail_fast_ret].
  destruct g; [apply fail_fast_raise|apply fail_fast_ret].
Qed.

Lemma fail_fast_get_all_groups fuel dm k :
  (forall g, fail_fast (k g)) -> fail_fast (get_all_groups fuel dm k).
Proof.
  intros Hk. unfold get_all_groups. cbv zeta.
  apply fail_fast_bind; [apply fail_fast_get_f|].
  generalize 1%Z as page.
  induction fuel as [|fuel IH]; intros page response.
  - destruct response as [| | |[|]]; cbn [groups_loop];
      first [apply fail_fast_ret | apply fail_fast_out_of_fuel].
  - assert (Hstep : forall body : M unit,
               fail_fast body ->
               fail_fast (body ;;
                          response <- get_f dm (AInt (page + 1)) ;;
                          groups_loop fuel dm k (page + 1) response)).
    { intros body Hbody. apply fail_fast_bind; [exact Hbody|]. intros _.
      apply fail_fast_bind; [apply fail_fast_get_f|]. apply IH. }
    destruct response as [| | |[|x items]]; cbn [groups_loop];
      try (apply Hstep; apply fail_fast_raise).
    + apply fail_fast_ret.
    + apply Hstep. apply fail_fast_foreach. intros group.
      apply fail_fast_bind; [apply fail_fast_data|]. intros g.
      apply fail_fast_bind; [apply fail_fast_yield_group|]. intros _. apply Hk.
Qed.

Lemma fail_fast_get_group fuel regex dm k :
  (forall i, fail_fast (k i)) -> fail_fast (get_group fuel regex dm k).
Proof.
  intros Hk. unfold get_group. apply fail_fast_get_all_groups. intros group.
  apply fail_fast_bind; [apply fail_fast_field_name|]. intros name.
  apply fail_fast_bind; [apply fail_fast_regex_search|].
  intros [span|]; [|apply fail_fast_ret].
  apply fail_fast_bind; [apply fail_fast_field_id|]. exact Hk.
Qed.

Lemma fail_fast_print_message buffer i show_users show_date before after interactive :
  fail_fast (print_message buffer i show_users show_date before after interactive).
Proof.
  unfold print_message. apply fail_fast_foreach. intros message.
  repeat first
    [ apply fail_fast_print
    | apply fail_fast_ret
    | apply fail_fast_raise
    | apply fail_fast_bind; [|intros ?]
    | match goal with |- fail_fast (if ?b then _ else _) => destruct b end
    | match goal with
      | |- fail_fast (match ?x with inl _ => _ | inr _ => _ end) => destruct x
      end ].
Qed.

Lemma fail_fast_try m handler :
  fail_fast m -> fail_fast handler -> fail_fast (try_except_KeyboardInterrupt m handler).
Proof.
  intros Hm Hh t Ht. specialize (Hm t Ht). unfold try_except_KeyboardInterrupt.
  destruct (m t) as [t' [a|e|]]; cbn [fst snd] in *; try exact Hm.
  destruct e; try exact Hm.
  destruct Hm as [Hc|(t1 & req & _ & _ & _ & Hr)]; [|discriminate].
  apply Hh, Hc.
Qed.

Lemma fail_fast_compile s flags : fail_fast (compile s flags).
Proof.
  unfold compile. destruct (re_compile s flags);
    [apply fail_fast_ret|apply fail_fast_raise].
Qed.

Lemma fail_fast_scan_argv fuel argv :
  forall rest i, fail_fast (scan_argv fuel argv i rest).
Proof.
  induction rest as [|arg rest IH]; intros i; cbn [scan_argv].
  - apply fail_fast_ret.
  - destruct (String.eqb arg "--"); [apply fail_fast_ret|].
    destruct (_ && _); [|apply IH].
    apply fail_fast_bind; [|intros _; apply fail_fast_raise].
    apply fail_fast_get_all_groups. intros group.
    apply fail_fast_bind; [apply fail_fast_field_name|]. intros name.
    apply fail_fast_print.
Qed.

Lemma fail_fast_main fuel argv : fail_fast (main fuel argv).
Proof.
  unfold main.
  apply fail_fast_bind; [apply fail_fast_scan_argv|]. intros _.
  apply fail_fast_bind.
  { destruct (parse_args argv); [apply fail_fast_ret|apply fail_fast_raise]. }
  intros args. cbv zeta.
  apply fail_fast_bind; [apply fail_fast_compile|]. intros groups.
  apply fail_fast_bind; [apply fail_fast_compile|]. intros regex.
  apply fail_fast_try; [|apply fail_fast_print].
  apply fail_fast_bind; [|intros _];
    apply fail_fast_get_group; intros group;
    apply fail_fast_search_messages; intros buffer i;
    apply fail_fast_print_message.
Qed.

(** C4: a reply whose status is neither a success nor "not modified" makes
    [get] raise; a search stops at the first such reply, whatever consumer
    (itself stopping so) it feeds; and in a run of the whole program a
    request so answered is the last thing that happens: it is the last
    request and the last event of the run, which ends by raising the error
    of that reply, so that nothing is retried and no other conversation is
    searched. *)
Theorem bad_status_aborts_the_run :
  (forall u ps t,
      bad_status (status_code (server (requests_of (get u ps t).1))) = true ->
      (get u ps t).2 = Raise (RuntimeError (server (requests_of (get u ps t).1)))) /\
  (forall fuel regex group dm interactive k,
      (forall b i, fail_fast (k b i)) ->
      fail_fast (search_messages fuel regex group dm interactive k)) /\
  (forall fuel argv history,
      history `prefix_of` requests_of (main fuel argv []).1 ->
      history <> [] ->
      bad_status (status_code (server history)) = true ->
      requests_of (main fuel argv []).1 = history /\
      (main fuel argv []).2 = Raise (RuntimeError (server history)) /\
      exists t1 req, (main fuel argv []).1 = t1 ++ [Fetch req]).
Proof.
  split; [|split].
  - intros u ps t. rewrite get_eq. cbv zeta. cbn [fst snd]. apply bad_status_result.
  - intros. apply fail_fast_search_messages. assumption.
  - intros fuel argv history Hpre Hne Hbad.
    destruct (fail_fast_main fuel argv [] clean_nil)
      as [Hc|(t1 & req & Ht & Hc1 & _ & Hr)].
    + rewrite (Hc history Hpre Hne) in Hbad. discriminate.
    + assert (Hall : requests_of (main fuel argv []).1 = history).
      { rewrite Ht, requests_of_app in Hpre |- *.
        apply prefix_snoc_cases in Hpre as [Hpre| ->]; [|reflexivity].
        rewrite (Hc1 history Hpre Hne) in Hbad. discriminate. }
      split; [exact Hall|]. split.
      * rewrite Hr, Hall. reflexivity.
      * exists t1, req. exact Ht.
Qed.

End FailFast.

(** ** Runs that show the defects *)

Lemma bad_status_aborts_the_run_witness :
  requests_of (@main failing_env 3 Fake.argv_foo []).1
  = [@list_request failing_env false ANone;
     @fetch_request failing_env false "42" None 100] /\
  (@main failing_env 3 Fake.argv_foo []).2 = Raise (RuntimeError (mkResponse 500 JNull)) /\
  exists t1 req, (@main failing_env 3 Fake.argv_foo []).1 = t1 ++ [Fetch req].
Proof.
  apply (proj2 (proj2 (@bad_status_aborts_the_run failing_env)) 3 Fake.argv_foo
           [@list_request failing_env false ANone;
            @fetch_request failing_env false "42" None 100]).
  - exists []. reflexivity.
  - discriminate.
  - reflexivity.
Defined.

Lemma context_window_inside_witness :
  context_window Examples.page3 2 1 1 = spec_window Examples.page3 2 1 1 /\
  context_window Examples.page3 2 1 1
  = [Examples.msg "3" (Some "foo baz"); Examples.msg "4" (Some "bar")].
Proof.
  split; [|reflexivity].
  apply (context_window_inside Examples.page3 2 1 1); cbn; lia.
Defined.

Section Fragments.
Context `{Env : Environment}.

(** Scanning with a list of fragments in the place of the pattern raises at
    the first message that has a text. *)
Lemma scan_page_fragments_raise (l : list string) (interactive : bool)
    (k : list Message -> nat -> M unit) :
  forall rest i buffer t,
    Exists (fun m => msg_text m <> None) rest ->
    scan_page (PyList l) interactive k i rest buffer t = (t, Raise AttributeError).
Proof.
  induction rest as [|m rest IH]; intros i buffer t Hex.
  - inversion Hex.
  - destruct (msg_text m) as [txt|] eqn:Htxt.
    + apply (scan_page_not_a_pattern _ _ _ _ _ _ _ txt). exact Htxt.
    + rewrite scan_page_no_text by exact Htxt. apply IH.
      inversion Hex as [? ? Hm|? ? Hrest]; subst; [congruence|exact Hrest].
Qed.

End Fragments.

(** C3 (code bug): [grepme foo], when the message "a foo b" is in the direct
    conversation with "ACM": the search of the direct conversation is given
    the list of fragments, not the compiled pattern, and the run ends with
    an [AttributeError] at the first message that has a text, with nothing
    printed.  The same message in the group "ACM" is found and printed. *)
Theorem direct_search_is_given_the_fragments :
  (@main (Fake.direct_env (fun _ => false)) 3 Fake.argv_foo []).2 = Raise AttributeError /\
  stdout_of (@main (Fake.direct_env (fun _ => false)) 3 Fake.argv_foo []).1 = [] /\
  (@main (Fake.group_env (fun _ => false)) 3 Fake.argv_foo []).2 = Done tt /\
  stdout_of (@main (Fake.group_env (fun _ => false)) 3 Fake.argv_foo []).1
  = ["bob: "; "a foo b" +:+ newline].
Proof. repeat split. Qed.

(** C9 (code bug): [grepme foo], with neither [--color] nor [--no-color]:
    the program asks whether standard input is a terminal.  With the output
    piped and the input a terminal the match is printed with colour codes;
    with the output on a terminal and the input not, it is printed without. *)
Theorem colour_follows_standard_input :
  args_color Fake.args_foo = None /\
  stdin_only 1 = false /\
  stdout_of (@main (Fake.group_env stdin_only) 3 Fake.argv_foo []).1
  = [PURPLE; "bob: "; RESET; "a " +:+ RED +:+ "foo" +:+ RESET +:+ " b" +:+ newline] /\
  stdout_only 1 = true /\
  stdout_of (@main (Fake.group_env stdout_only) 3 Fake.argv_foo []).1
  = ["bob: "; "a foo b" +:+ newline].
Proof. repeat split. Qed.

Lemma bind_ext {A B} (m1 m2 : M A) (f1 f2 : A -> M B) (t : trace) :
  m1 t = m2 t -> (forall a t', f1 a t' = f2 a t') -> bind m1 f1 t = bind m2 f2 t.
Proof. unfold bind. intros -> H. destruct (m2 t) as [t' [a| |]]; auto. Qed.


(** ** Colouring a span *)

Lemma substring_join (t : string) :
  forall n m1 m2,
    substring n m1 t +:+ substring (n + m1) m2 t = substring n (m1 + m2) t.
Proof.
  induction t as [|c t IH]; intros n m1 m2.
  - destruct n, m1, m2; reflexivity.
  - destruct n as [|n].
    + destruct m1 as [|m1]; [reflexivity|].
      cbn [Nat.add substring]. rewrite <- (IH 0 m1 m2). reflexivity.
    + cbn [Nat.add substring]. apply IH.
Qed.

Lemma substring_whole (t : string) : substring 0 (String.length t) t = t.
Proof. induction t as [|c t IH]; [reflexivity|]. cbn. f_equal. exact IH. Qed.

Lemma substring_length (t : string) :
  forall n m, n + m <= String.length t -> String.length (substring n m t) = m.
Proof.
  induction t as [|c t IH]; intros n m H.
  - cbn in H. destruct n, m; try reflexivity; lia.
  - destruct n as [|n].
    + destruct m as [|m]; [reflexivity|]. cbn. f_equal. apply IH. cbn in H. lia.
    + cbn. apply IH. cbn in H. lia.
Qed.

(** Colouring a span inside the text splits the text at the two ends of the
    span and puts the two codes there: no character is lost or moved. *)
Theorem wrap_span_inserts_codes_around_the_span (t : string) (start end_ : nat)
    (a b : string) :
  start <= end_ -> end_ <= String.length t ->
  exists pre mid post,
    t = pre +:+ mid +:+ post /\
    String.length pre = start /\ String.length mid = end_ - start /\
    wrap_span t start end_ a b = pre +:+ a +:+ mid +:+ b +:+ post.
Proof.
  intros H1 H2.
  exists (substring 0 start t), (substring start (end_ - start) t),
         (substring end_ (String.length t - end_) t).
  split; [|split; [|split]].
  - replace end_ with (start + (end_ - start)) at 2 by lia.
    rewrite substring_join.
    replace (substring start (end_ - start + (String.length t - end_)) t)
      with (substring (0 + start) (String.length t - start) t) by (f_equal; lia).
    rewrite substring_join.
    replace (start + (String.length t - start)) with (String.length t) by lia.
    symmetry. apply substring_whole.
  - apply substring_length. lia.
  - apply substring_length. lia.
  - reflexivity.
Qed.

Lemma wrap_span_inserts_codes_around_the_span_witness :
  exists pre mid post,
    "a foo b" = pre +:+ mid +:+ post /\
    String.length pre = 2 /\ String.length mid = 5 - 2 /\
    wrap_span "a foo b" 2 5 RED RESET = pre +:+ RED +:+ mid +:+ RESET +:+ post.
Proof.
  apply (wrap_span_inserts_codes_around_the_span "a foo b" 2 5 RED RESET); cbn; lia.
Defined.

(** ** The window at the edges of a page *)

(** The messages [print_message] renders are consecutive messages of the
    page, whatever the context sizes; and for context sizes that are not
    negative they are at most [before + after + 1]. *)
Theorem context_window_stays_in_page (buffer : list Message) (i : nat)
    (before after : Z) :
  (exists l1 l2,
      buffer = l1 ++ reverse (context_window buffer i before after) ++ l2) /\
  (i < length buffer -> (0 <= before)%Z -> (0 <= after)%Z ->
   (Z.of_nat (length (context_window buffer i before after)) <= before + after + 1)%Z).
Proof.
  unfold context_window, py_slice. split.
  - rewrite reverse_involutive.
    eexists (take _ buffer), (drop _ (drop _ buffer)).
    rewrite take_drop, take_drop. reflexivity.
  - intros Hi Hb Ha. rewrite length_reverse, length_take, length_drop.
    unfold adjust.
    destruct (Z.ltb_spec (Z.of_nat i - after) 0);
      destruct (Z.ltb_spec (Z.of_nat i + before + 1) 0); lia.
Qed.

Lemma context_window_stays_in_page_witness :
  (Z.of_nat (length (context_window Examples.page3 1 1 5)) <= 1 + 5 + 1)%Z.
Proof.
  apply (proj2 (context_window_stays_in_page Examples.page3 1 1 5)); cbn; lia.
Defined.

(** When the match is fewer than [after] messages into the page and [after]
    is less than the length of the page, every message [print_message]
    renders sits at an index greater than that of the match: the lower bound
    of the slice has wrapped around, and the match itself is outside the
    slice. *)
Theorem context_window_beyond_the_match (buffer : list Message) (i : nat)
    (before after : Z) :
  i < length buffer -> (0 <= before)%Z ->
  (Z.of_nat i < after < Z.of_nat (length buffer))%Z ->
  Forall (fun m => exists j, i < j /\ buffer !! j = Some m)
         (context_window buffer i before after).
Proof.
  intros Hi Hb Ha. apply Forall_forall. intros m Hm.
  unfold context_window, py_slice in Hm.
  apply elem_of_reverse, elem_of_take in Hm as (k & Hk & _).
  rewrite lookup_drop in Hk.
  eexists. split; [|exact Hk].
  unfold adjust. destruct (Z.ltb_spec (Z.of_nat i - after) 0); lia.
Qed.

Lemma context_window_beyond_the_match_witness :
  Forall (fun m => exists j, 0 < j /\ Examples.page3 !! j = Some m)
         (context_window Examples.page3 0 5 2) /\
  context_window Examples.page3 0 5 2
  = [Examples.msg "3" (Some "foo baz"); Examples.msg "4" (Some "bar")].
Proof.
  split; [|reflexivity].
  apply (context_window_beyond_the_match Examples.page3 0 5 2); cbn; lia.
Defined.

(** ** The events of a search, page by page *)

Section SearchTrace.
Context `{Env : Environment}.

Lemma colour_id (p : pattern) (m : Message) : msg_id (colour p m) = msg_id m.
Proof.
  unfold colour. destruct (msg_text m); [|reflexivity].
  destruct (re_search p s) as [[]|]; reflexivity.
Qed.

Lemma colour_upto_lookup (p : pattern) (P : list Message) (i : nat) :
  i <= length P -> colour_upto p i P !! i = P !! i.
Proof.
  intros Hi. unfold colour_upto.
  rewrite lookup_app_r by (rewrite length_fmap, length_take; lia).
  rewrite length_fmap, length_take_le by lia.
  rewrite Nat.sub_diag, lookup_drop, Nat.add_0_r. reflexivity.
Qed.

Lemma colour_upto_step (p : pattern) (P : list Message) (i : nat) (m : Message) :
  P !! i = Some m ->
  colour_upto p (S i) P = <[i := colour p m]> (colour_upto p i P).
Proof.
  intros H. pose proof (lookup_lt_Some _ _ _ H) as Hi. unfold colour_upto.
  rewrite (take_S_r _ _ _ H), fmap_app, (drop_S _ _ _ H).
  rewrite insert_app_r_alt by (rewrite length_fmap, length_take; lia).
  rewrite length_fmap, length_take_le by lia.
  rewrite Nat.sub_diag, <- app_assoc. reflexivity.
Qed.

Lemma colour_upto_skip (p : pattern) (P : list Message) (i : nat) (m : Message) :
  P !! i = Some m -> colour p m = m ->
  colour_upto p (S i) P = colour_upto p i P.
Proof.
  intros H Hc. rewrite (colour_upto_step _ _ _ _ H), Hc.
  apply list_insert_id. rewrite colour_upto_lookup; [exact H|].
  apply lookup_lt_Some in H. lia.
Qed.

Lemma colour_upto_all (p : pattern) (P : list Message) (n : nat) :
  length P <= n -> colour_upto p n P = colour p <$> P.
Proof.
  intros H. unfold colour_upto. rewrite take_ge, drop_ge by lia. apply app_nil_r.
Qed.

Lemma cursor_of_colour (p : pattern) (P : list Message) :
  cursor_of (colour p <$> P) = cursor_of P.
Proof.
  apply cursor_of_ids. rewrite <- list_fmap_compose. apply list_fmap_ext.
  intros i m _. apply colour_id.
Qed.

Lemma scan_events_skip p interactive out P i m rest :
  matching p m = false ->
  scan_events p interactive out P i (m :: rest)
  = scan_events p interactive out P (S i) rest.
Proof. intros H. unfold scan_events. cbn [matches_from]. rewrite H. reflexivity. Qed.

Lemma scan_events_hit p interactive out P i m rest :
  matching p m = true ->
  scan_events p interactive out P i (m :: rest)
  = YieldMatch (handed_out p interactive P i) i
      :: out (handed_out p interactive P i) i
      ++ scan_events p interactive out P (S i) rest.
Proof. intros H. unfold scan_events. cbn [matches_from]. rewrite H. reflexivity. Qed.

Lemma held_skip p interactive P i m :
  P !! i = Some m -> matching p m = false ->
  held p interactive P (S i) = held p interactive P i.
Proof.
  intros Hlook Hm. unfold held. destruct interactive; [|reflexivity].
  apply (colour_upto_skip _ _ _ _ Hlook).
  unfold matching in Hm. unfold colour.
  destruct (msg_text m) as [txt|]; [|reflexivity].
  destruct (re_search p txt); [discriminate|reflexivity].
Qed.

Lemma scan_page_trace (p : pattern) (interactive : bool)
    (k : list Message -> nat -> M unit) (out : list Message -> nat -> trace)
    (P : list Message) :
  (forall b i t, k b i t = (t ++ out b i, Done tt)) ->
  forall rest i t,
    rest = drop i P ->
    scan_page (PyPattern p) interactive k i rest (held p interactive P i) t
    = (t ++ scan_events p interactive out P i rest,
       Done (held p interactive P (i + length rest))).
Proof.
  intros Hk. induction rest as [|m rest IH]; intros i t Hrest.
  - cbn. rewrite Nat.add_0_r, app_nil_r. reflexivity.
  - assert (Hlook : P !! i = Some m).
    { rewrite <- (Nat.add_0_r i), <- lookup_drop, <- Hrest. reflexivity. }
    rewrite (drop_S _ _ _ Hlook) in Hrest. injection Hrest as Hrest.
    replace (i + length (m :: rest)) with (S i + length rest) by (cbn; lia).
    destruct (msg_text m) as [txt|] eqn:Htxt.
    2: { assert (Hm : matching p m = false) by (unfold matching; rewrite Htxt; reflexivity).
         rewrite scan_page_no_text by exact Htxt.
         rewrite (scan_events_skip _ _ _ _ _ _ _ Hm).
         rewrite <- (held_skip p interactive P i m Hlook Hm). apply IH, Hrest. }
    destruct (re_search p txt) as [[start end_]|] eqn:Hs.
    2: { assert (Hm : matching p m = false)
           by (unfold matching; rewrite Htxt, Hs; reflexivity).
         rewrite (scan_page_no_match _ _ _ _ _ _ _ txt) by assumption.
         rewrite (scan_events_skip _ _ _ _ _ _ _ Hm).
         rewrite <- (held_skip p interactive P i m Hlook Hm). apply IH, Hrest. }
    assert (Hm : matching p m = true) by (unfold matching; rewrite Htxt, Hs; reflexivity).
    rewrite (scan_page_match _ _ _ _ _ _ _ txt start end_) by assumption.
    cbv zeta.
    assert (Hb : (if interactive
                  then <[i := set_text m (Some (wrap_span txt start end_ RED RESET))]>
                         (held p interactive P i)
                  else held p interactive P i)
                 = handed_out p interactive P i).
    { unfold held, handed_out. destruct interactive; [|reflexivity].
      rewrite (colour_upto_step _ _ _ _ Hlook). unfold colour.
      rewrite Htxt, Hs. reflexivity. }
    rewrite Hb.
    rewrite (bind_done _ _ _ _ _ (Hk (handed_out p interactive P i) i _)).
    rewrite (scan_events_hit _ _ _ _ _ _ _ Hm).
    assert (Hh : handed_out p interactive P i = held p interactive P (S i))
      by reflexivity.
    rewrite Hh at 3. rewrite (IH (S i) _ Hrest).
    rewrite <- !app_assoc. reflexivity.
Qed.

Lemma requests_of_scan_events p interactive out P i rest :
  (forall b j, requests_of (out b j) = []) ->
  requests_of (scan_events p interactive out P i rest) = [].
Proof.
  intros Hout. unfold scan_events.
  induction (matches_from p i rest) as [|j l IH]; [reflexivity|].
  cbn [flat_map]. rewrite requests_of_app, IH, app_nil_r.
  apply (Hout (handed_out p interactive P j) j).
Qed.

Lemma search_loop_trace (p : pattern) (group : string) (dm interactive : bool)
    (k : list Message -> nat -> M unit) (out : list Message -> nat -> trace)
    (pages : list (list Message)) :
  (forall b i t, k b i t = (t ++ out b i, Done tt)) ->
  (forall b i, requests_of (out b i) = []) ->
  Forall (fun page => page <> []) pages ->
  replies_in_order (page_reply dm <$> (pages ++ [[]])) ->
  forall fuel n buffer t,
    (pages ++ [[]]) !! n = Some buffer ->
    length (requests_of t) = S n ->
    length pages - n <= fuel ->
    search_loop fuel (PyPattern p) (if dm then get_dm else get_messages) group
                interactive k buffer t
    = (t ++ search_trace p dm group interactive out (drop n pages), Done tt).
Proof.
  intros Hk Hout Hne Hscript.
  induction fuel as [|fuel IH]; intros n buffer t Hn Hlen Hfuel;
    (destruct (decide (buffer = [])) as [->|Hbuf];
     [ rewrite search_loop_empty;
       assert (length pages <= n);
       [ destruct (decide (n < length pages)) as [Hlt|]; [|lia];
         rewrite lookup_app_l in Hn by exact Hlt;
         rewrite Forall_lookup in Hne; specialize (Hne _ _ Hn); contradiction
       | rewrite drop_ge by assumption; cbn; rewrite app_nil_r; reflexivity ]
     | ]).
  all: assert (Hpage : pages !! n = Some buffer)
    by (destruct (decide (n < length pages)) as [Hlt|Hge];
        [ rewrite lookup_app_l in Hn by exact Hlt; exact Hn
        | rewrite lookup_app_r in Hn by lia;
          destruct (n - length pages) as [|[|d]]; simplify_eq/=; congruence ]).
  all: pose proof (lookup_lt_Some _ _ _ Hpage) as Hlt.
  { lia. }
  rewrite search_loop_nonempty by assumption.
  assert (Hstart : held p interactive buffer 0 = buffer)
    by (unfold held, colour_upto; destruct interactive; reflexivity).
  pose proof (scan_page_trace p interactive k out buffer Hk buffer 0 t eq_refl) as Hscan.
  rewrite Hstart in Hscan. cbn [Nat.add] in Hscan.
  rewrite (bind_done _ _ _ _ _ Hscan).
  set (t1 := t ++ scan_events p interactive out buffer 0 buffer).
  assert (Hcur : cursor_of (held p interactive buffer (length buffer)) = cursor_of buffer).
  { unfold held. destruct interactive; [|reflexivity].
    rewrite colour_upto_all by lia. apply cursor_of_colour. }
  destruct (cursor_of_nonempty buffer Hbuf) as (m & Hlast & Hcm).
  rewrite Hcm in Hcur. unfold cursor_of in Hcur.
  destruct (last (held p interactive buffer (length buffer))) as [m1|] eqn:Hlast1;
    [|discriminate].
  cbn in Hcur. injection Hcur as Hid.
  rewrite (bind_done _ _ t1 t1 (msg_id m1) eq_refl).
  set (t2 := t1 ++ [Fetch (fetch_request dm group (Some (msg_id m1)) 100%Z)]).
  assert (Hreq2 : length (requests_of t2) = S (S n)).
  { subst t2 t1. rewrite !requests_of_app, requests_of_scan_events by exact Hout.
    rewrite app_nil_r, length_app, Hlen. cbn. lia. }
  destruct ((pages ++ [[]]) !! S n) as [buffer2|] eqn:Hb2.
  2: { apply lookup_ge_None in Hb2. rewrite length_app in Hb2. cbn in Hb2. lia. }
  assert (Hres2 : page_result dm (server (requests_of t2)) = Done buffer2).
  { specialize (Hscript (requests_of t2)).
    rewrite Hreq2, length_fmap, length_app in Hscript.
    replace (S (S n) - 1) with (S n) in Hscript by lia.
    rewrite list_lookup_fmap, Hb2 in Hscript.
    specialize (Hscript ltac:(cbn; lia)). cbn in Hscript.
    injection Hscript as <-. apply page_result_reply. }
  rewrite (bind_done _ _ t1 t2 buffer2).
  2: { rewrite get_function_eq. cbv zeta. fold t2. rewrite Hres2. reflexivity. }
  rewrite (IH (S n) buffer2 t2 Hb2 Hreq2) by lia.
  rewrite (drop_S _ _ _ Hpage). cbn [search_trace].
  subst t2 t1. rewrite Hcm, Hid, <- !app_assoc. reflexivity.
Qed.

Lemma search_messages_trace (p : pattern) (group : string) (dm interactive : bool)
    (k : list Message -> nat -> M unit) (out : list Message -> nat -> trace)
    (pages : list (list Message)) (fuel : nat) :
  (forall b i t, k b i t = (t ++ out b i, Done tt)) ->
  (forall b i, requests_of (out b i) = []) ->
  Forall (fun page => page <> []) pages ->
  replies_in_order (page_reply dm <$> (pages ++ [[]])) ->
  length pages <= fuel ->
  search_messages fuel (PyPattern p) group dm interactive k []
  = (Fetch (fetch_request dm group None 100)
       :: search_trace p dm group interactive out pages, Done tt).
Proof.
  intros Hk Hout Hne Hscript Hfuel.
  destruct ((pages ++ [[]]) !! 0) as [buffer|] eqn:Hb.
  2: { apply lookup_ge_None in Hb. rewrite length_app in Hb. cbn in Hb. lia. }
  assert (Hres : page_result dm (server [fetch_request dm group None 100%Z]) = Done buffer).
  { specialize (Hscript [fetch_request dm group None 100%Z]).
    rewrite length_fmap, length_app in Hscript. cbn in Hscript.
    rewrite list_lookup_fmap, Hb in Hscript.
    specialize (Hscript ltac:(lia)). injection Hscript as <-.
    apply page_result_reply. }
  unfold search_messages. cbv zeta.
  rewrite (bind_done _ _ [] [Fetch (fetch_request dm group None 100%Z)] buffer).
  2: { rewrite get_function_eq. cbv zeta. cbn [app].
       change (requests_of [Fetch ?r]) with [r]. rewrite Hres. reflexivity. }
  rewrite (search_loop_trace p group dm interactive k out pages Hk Hout Hne Hscript
             fuel 0 buffer [Fetch (fetch_request dm group None 100%Z)] Hb eq_refl) by lia.
  reflexivity.
Qed.

End SearchTrace.

(** ** What a search hands out and what it prints *)

Section SearchResults.
Context `{Env : Environment}.

Lemma elem_of_matches_from (p : pattern) :
  forall rest i j,
    j ∈ matches_from p i rest <->
    exists m, i <= j /\ rest !! (j - i) = Some m /\ matching p m = true.
Proof.
  induction rest as [|m rest IH]; intros i j; cbn [matches_from].
  - split; [intros H; inversion H|intros (m & _ & H & _); discriminate].
  - assert (Hrec : j ∈ matches_from p (S i) rest <->
                   exists m', i <= j /\ j <> i /\
                              (m :: rest) !! (j - i) = Some m' /\ matching p m' = true).
    { rewrite IH. split.
      - intros (m' & Hle & Hl & Hm). exists m'. repeat split; try lia; [|exact Hm].
        replace (j - i) with (S (j - S i)) by lia. exact Hl.
      - intros (m' & Hle & Hne & Hl & Hm). exists m'. repeat split; try lia; [|exact Hm].
        replace (j - i) with (S (j - S i)) in Hl by lia. exact Hl. }
    destruct (matching p m) eqn:Hm.
    + rewrite elem_of_cons, Hrec. split.
      * intros [->|(m' & Hle & _ & Hl & Hm')].
        -- exists m. rewrite Nat.sub_diag. auto.
        -- exists m'. auto.
      * intros (m' & Hle & Hl & Hm'). destruct (decide (j = i)) as [->|Hne].
        -- left. reflexivity.
        -- right. exists m'. auto.
    + rewrite Hrec. split.
      * intros (m' & Hle & _ & Hl & Hm'). exists m'. auto.
      * intros (m' & Hle & Hl & Hm'). exists m'. repeat split; try assumption.
        intros ->. rewrite Nat.sub_diag in Hl. cbn in Hl. congruence.
Qed.

Lemma matches_of_scan_events_silent p interactive P i rest :
  matches_of (scan_events p interactive (fun _ _ => []) P i rest)
  = (fun j => (handed_out p interactive P j, j)) <$> matches_from p i rest.
Proof.
  unfold scan_events. induction (matches_from p i rest) as [|j l IH]; [reflexivity|].
  cbn. f_equal. exact IH.
Qed.

Lemma matches_of_search_trace_silent p dm group interactive pages :
  matches_of (search_trace p dm group interactive (fun _ _ => []) pages)
  = flat_map (fun P => (fun j => (handed_out p interactive P j, j)) <$> matches_from p 0 P)
             pages.
Proof.
  induction pages as [|P pages IH]; [reflexivity|].
  cbn [search_trace flat_map].
  rewrite !matches_of_app, matches_of_scan_events_silent, IH. reflexivity.
Qed.

(** Against a source that returns the pages of [pages], none empty, and
    then an empty page, a search hands out, page by page and in the order of
    the page, exactly the indices of the messages that have a text in which
    the pattern matches.  The page handed out with an index is the fetched
    page itself or, with colour, that page with every matching message up to
    and including that index coloured, and the later messages as fetched. *)
Theorem search_hands_out_exactly_the_matches (p : pattern) (group : string)
    (dm interactive : bool) (pages : list (list Message)) (fuel : nat) :
  Forall (fun page => page <> []) pages ->
  replies_in_order (page_reply dm <$> (pages ++ [[]])) ->
  length pages <= fuel ->
  (search_messages fuel (PyPattern p) group dm interactive drain []).2 = Done tt /\
  matches_of (search_messages fuel (PyPattern p) group dm interactive drain []).1
  = flat_map (fun P => (fun j => (handed_out p interactive P j, j)) <$> matches_from p 0 P)
             pages /\
  (forall P j, j ∈ matches_from p 0 P <->
               exists m, P !! j = Some m /\ matching p m = true).
Proof.
  intros Hne Hscript Hfuel.
  rewrite (search_messages_trace p group dm interactive drain (fun _ _ => []) pages fuel);
    try assumption.
  - cbn [fst snd]. split; [reflexivity|]. split.
    + change (Fetch ?r :: ?l) with ([Fetch r] ++ l).
      rewrite matches_of_app. apply matches_of_search_trace_silent.
    + intros P j. rewrite elem_of_matches_from. rewrite Nat.sub_0_r.
      split; intros (m & H); exists m; intuition lia.
  - intros b i t. unfold drain, ret. rewrite app_nil_r. reflexivity.
  - reflexivity.
Qed.

Lemma foreach_events {A} (body : A -> M unit) (f : A -> trace) (l : list A) :
  Forall (fun x => forall t, body x t = (t ++ f x, Done tt)) l ->
  forall t, foreach l body t = (t ++ flat_map f l, Done tt).
Proof.
  induction 1 as [|x l Hx _ IH]; intros t.
  - cbn. rewrite app_nil_r. reflexivity.
  - cbn [foreach flat_map]. rewrite (bind_done _ _ _ _ _ (Hx t)), IH, <- app_assoc.
    reflexivity.
Qed.

(** What [print_message] does when the dates it has to show, if any, can
    be shown. *)
Lemma print_message_eq buffer i show_users show_date before after interactive t :
  (show_date = true -> Forall dated (context_window buffer i before after)) ->
  print_message buffer i show_users show_date before after interactive t
  = (t ++ flat_map (render_line show_users show_date interactive)
                   (context_window buffer i before after), Done tt).
Proof.
  intros Hdates. unfold print_message. apply foreach_events.
  destruct show_date.
  - eapply Forall_impl; [exact (Hdates eq_refl)|]. clear. intros m [d Hd] t.
    unfold render_line, date_of, bind, print, emit, ret. rewrite Hd.
    destruct show_users, interactive; cbn; rewrite <- ?app_assoc; reflexivity.
  - apply Forall_forall. clear. intros m _ t.
    unfold render_line, bind, print, emit, ret.
    destruct show_users, interactive; cbn; rewrite <- ?app_assoc; reflexivity.
Qed.

Lemma requests_of_render_lines show_users show_date interactive l :
  requests_of (flat_map (render_line show_users show_date interactive) l) = [].
Proof.
  induction l as [|m l IH]; [reflexivity|].
  cbn [flat_map]. rewrite requests_of_app, IH, app_nil_r.
  unfold render_line. destruct show_date, show_users, interactive; reflexivity.
Qed.

Lemma context_window_single (P : list Message) (i : nat) (m : Message) :
  P !! i = Some m -> context_window P i 0 0 = [m].
Proof.
  intros H. pose proof (lookup_lt_Some _ _ _ H) as Hi.
  unfold context_window, py_slice.
  rewrite !adjust_in_range by lia.
  replace (Z.to_nat (Z.of_nat i + 0 + 1 - (Z.of_nat i - 0))) with 1 by lia.
  replace (Z.to_nat (Z.of_nat i - 0)) with i by lia.
  rewrite (drop_S _ _ _ H). reflexivity.
Qed.

Lemma stdout_of_scan_events_plain (p : pattern) (P : list Message) :
  forall rest i,
    rest = drop i P ->
    stdout_of (scan_events p false
                 (fun b j => flat_map (render_line false false false)
                                      (context_window b j 0 0)) P i rest)
    = (fun m => str_of (msg_text m) +:+ newline) <$> List.filter (matching p) rest.
Proof.
  induction rest as [|m rest IH]; intros i Hrest; [reflexivity|].
  assert (Hlook : P !! i = Some m).
  { rewrite <- (Nat.add_0_r i), <- lookup_drop, <- Hrest. reflexivity. }
  rewrite (drop_S _ _ _ Hlook) in Hrest. injection Hrest as Hrest.
  cbn [List.filter]. destruct (matching p m) eqn:Hm.
  - rewrite (scan_events_hit _ _ _ _ _ _ _ Hm).
    change (handed_out p false P i) with P.
    rewrite (context_window_single _ _ _ Hlook).
    cbn [flat_map render_line app stdout_of omap list_omap fmap list_fmap].
    f_equal. apply (IH (S i) Hrest).
  - rewrite (scan_events_skip _ _ _ _ _ _ _ Hm). apply (IH (S i) Hrest).
Qed.

(** Against a source that returns the pages of [pages], none empty, and
    then an empty page, a search without colour whose matches are printed
    without names, dates and context writes exactly the texts of the
    matching messages, one per line, in the order the source returned them
    (newest first). *)
Theorem search_prints_the_matching_texts (p : pattern) (group : string) (dm : bool)
    (pages : list (list Message)) (fuel : nat) :
  Forall (fun page => page <> []) pages ->
  replies_in_order (page_reply dm <$> (pages ++ [[]])) ->
  length pages <= fuel ->
  (search_messages fuel (PyPattern p) group dm false
     (fun b i => print_message b i false false 0 0 false) []).2 = Done tt /\
  stdout_of (search_messages fuel (PyPattern p) group dm false
               (fun b i => print_message b i false false 0 0 false) []).1
  = (fun m => str_of (msg_text m) +:+ newline)
      <$> List.filter (matching p) (concat pages).
Proof.
  intros Hne Hscript Hfuel.
  rewrite (search_messages_trace p group dm false _
             (fun b j => flat_map (render_line false false false)
                                  (context_window b j 0 0)) pages fuel);
    try assumption.
  - cbn [fst snd]. split; [reflexivity|].
    change (Fetch ?r :: ?l) with ([Fetch r] ++ l).
    rewrite stdout_of_app. cbn [stdout_of omap list_omap app].
    clear. induction pages as [|P pages IH]; [reflexivity|].
    cbn [search_trace concat].
    rewrite !stdout_of_app, (stdout_of_scan_events_plain p P P 0 eq_refl), IH.
    rewrite List.filter_app, fmap_app. reflexivity.
  - intros b i t. apply print_message_eq. discriminate.
  - intros b i. apply requests_of_render_lines.
Qed.

End SearchResults.

Lemma search_hands_out_exactly_the_matches_witness :
  (@search_messages (one_page_env true) 1 (PyPattern ["ba"]) "u" true true drain []).2
  = Done tt /\
  matches_of (@search_messages (one_page_env true) 1 (PyPattern ["ba"]) "u" true true
                drain []).1
  = flat_map (fun P => (fun j => (@handed_out (one_page_env true) ["ba"] true P j, j))
                         <$> @matches_from (one_page_env true) ["ba"] 0 P)
             [Examples.page3] /\
  @matches_from (one_page_env true) ["ba"] 0 Examples.page3 = [1; 2].
Proof.
  destruct (@search_hands_out_exactly_the_matches (one_page_env true) ["ba"] "u" true true
              [Examples.page3] 1) as (H1 & H2 & _).
  - repeat constructor. discriminate.
  - apply scripted_replies_in_order.
  - cbn. lia.
  - split; [exact H1|]. split; [exact H2|reflexivity].
Defined.

Lemma search_prints_the_matching_texts_witness :
  stdout_of (@search_messages (one_page_env false) 1 (PyPattern ["foo"]) "g" false false
               (fun b i => @print_message (one_page_env false) b i false false 0 0 false)
               []).1
  = ["foo" +:+ newline; "foo baz" +:+ newline].
Proof.
  apply (proj2 (@search_prints_the_matching_texts (one_page_env false) ["foo"] "g" false
                  [Examples.page3] 1
                  ltac:(repeat constructor; discriminate)
                  (scripted_replies_in_order _ _ _)
                  ltac:(cbn; lia))).
Defined.

(** ** Searches that do not end normally *)

Section Endless.
Context `{Env : Environment}.

Lemma search_loop_polls (p : pattern) (group : string) (dm interactive : bool) :
  (forall history, exists page, page <> [] /\ page_result dm (server history) = Done page) ->
  forall fuel buffer t,
    buffer <> [] ->
    exists t',
      search_loop fuel (PyPattern p) (if dm then get_dm else get_messages) group
                  interactive drain buffer t = (t', OutOfFuel) /\
      length (requests_of t') = length (requests_of t) + fuel.
Proof.
  intros Hsrv. induction fuel as [|fuel IH]; intros buffer t Hbuf.
  - rewrite search_loop_no_fuel by assumption. exists t. split; [reflexivity|lia].
  - rewrite search_loop_nonempty by assumption.
    destruct (scan_page_spec (PyPattern p) interactive buffer buffer 0 buffer t
                (scanning_start _ _)) as (Hreq & _ & Hdone).
    destruct (Hdone p eq_refl) as (buffer1 & Hres & Hids). clear Hdone.
    destruct (scan_page (PyPattern p) interactive drain 0 buffer buffer t)
      as [t1 o1] eqn:Hscan.
    cbn [fst snd] in Hreq, Hres. subst o1.
    rewrite (bind_done _ _ _ _ _ Hscan).
    destruct (cursor_of_nonempty buffer Hbuf) as (m & Hlast & Hcur).
    pose proof (cursor_of_ids _ _ Hids) as Hcur1. rewrite Hcur in Hcur1.
    unfold cursor_of in Hcur1.
    destruct (last buffer1) as [m1|] eqn:Hlast1; [|discriminate].
    rewrite (bind_done _ _ t1 t1 (msg_id m1) eq_refl).
    set (t2 := t1 ++ [Fetch (fetch_request dm group (Some (msg_id m1)) 100%Z)]).
    destruct (Hsrv (requests_of t2)) as (page & Hpage & Hres2).
    rewrite (bind_done _ _ t1 t2 page).
    2: { rewrite get_function_eq. cbv zeta. fold t2. rewrite Hres2. reflexivity. }
    destruct (IH page t2 Hpage) as (t' & Hrun & Hlen).
    exists t'. split; [exact Hrun|].
    rewrite Hlen. subst t2. rewrite requests_of_app, length_app, Hreq. cbn. lia.
Qed.

(** The loop of a search ends only on an empty page: against a source that
    answers every request with a page that is not empty, the search is still
    running after any number of passes of its loop, having sent one request
    more than passes made. *)
Theorem search_polls_until_an_empty_page (p : pattern) (group : string)
    (dm interactive : bool) (fuel : nat) :
  (forall history, exists page, page <> [] /\ page_result dm (server history) = Done page) ->
  (search_messages fuel (PyPattern p) group dm interactive drain []).2 = OutOfFuel /\
  length (requests_of (search_messages fuel (PyPattern p) group dm interactive drain []).1)
  = S fuel.
Proof.
  intros Hsrv.
  destruct (Hsrv [fetch_request dm group None 100%Z]) as (page & Hpage & Hres).
  destruct (search_loop_polls p group dm interactive Hsrv fuel page
              [Fetch (fetch_request dm group None 100%Z)] Hpage) as (t' & Hrun & Hlen).
  assert (H : search_messages fuel (PyPattern p) group dm interactive drain []
              = (t', OutOfFuel)).
  { unfold search_messages. cbv zeta.
    rewrite (bind_done _ _ [] [Fetch (fetch_request dm group None 100%Z)] page).
    - exact Hrun.
    - rewrite get_function_eq. cbv zeta. cbn [app].
      change (requests_of [Fetch ?r]) with [r]. rewrite Hres. reflexivity. }
  rewrite H. cbn [fst snd]. split; [reflexivity|]. rewrite Hlen. reflexivity.
Qed.

(** A search that is given a list of fragments in the place of a compiled
    pattern raises [AttributeError] as soon as its first page holds a message
    with a text: it has sent one request and handed out nothing. *)
Theorem search_with_fragments_raises (l : list string) (group : string)
    (dm interactive : bool) (k : list Message -> nat -> M unit) (fuel : nat)
    (t : trace) (page : list Message) :
  page_result dm (server (requests_of t ++ [fetch_request dm group None 100])) = Done page ->
  Exists (fun m => msg_text m <> None) page ->
  0 < fuel ->
  search_messages fuel (PyList l) group dm interactive k t
  = (t ++ [Fetch (fetch_request dm group None 100)], Raise AttributeError).
Proof.
  intros Hres Hex Hfuel.
  assert (Hne : page <> []) by (intros ->; inversion Hex).
  destruct fuel as [|fuel]; [lia|].
  unfold search_messages. cbv zeta.
  rewrite (bind_done _ _ t (t ++ [Fetch (fetch_request dm group None 100%Z)]) page).
  2: { rewrite get_function_eq. cbv zeta. rewrite requests_of_app.
       change (requests_of [Fetch ?r]) with [r]. rewrite Hres. reflexivity. }
  rewrite search_loop_nonempty by exact Hne.
  apply bind_raise. apply scan_page_fragments_raise, Hex.
Qed.

End Endless.

Lemma search_polls_until_an_empty_page_witness :
  (@search_messages (endless_env false) 4 (PyPattern ["foo"]) "g" false true drain []).2
  = OutOfFuel /\
  length (requests_of (@search_messages (endless_env false) 4 (PyPattern ["foo"]) "g"
                         false true drain []).1) = 5.
Proof.
  apply (@search_polls_until_an_empty_page (endless_env false) ["foo"] "g" false true 4).
  intros history. exists Examples.page3. split; [discriminate|reflexivity].
Defined.

Lemma search_with_fragments_raises_witness :
  @search_messages (one_page_env true) 1 (PyList ["foo"]) "u" true false drain []
  = ([Fetch (@fetch_request (one_page_env true) true "u" None 100)], Raise AttributeError).
Proof.
  apply (@search_with_fragments_raises (one_page_env true) ["foo"] "u" true false drain 1
           [] Examples.page3).
  - reflexivity.
  - constructor. discriminate.
  - lia.
Defined.

(** ** More on the enumeration *)

Section Enumeration.
Context `{Env : Environment}.

(** A reply "304 not modified" to the first request of an enumeration is
    not taken for an empty listing: [get] returns [None], which differs from
    [[]], and iterating over it raises [TypeError]. *)
Theorem not_modified_listing_raises (dm : bool) (k : entry -> M unit) (fuel : nat)
    (t : trace) :
  status_code (server (requests_of t ++ [list_request dm ANone])) = 304%Z ->
  0 < fuel ->
  get_all_groups fuel dm k t = (t ++ [Fetch (list_request dm ANone)], Raise TypeError).
Proof.
  intros H Hfuel. destruct fuel as [|fuel]; [lia|].
  unfold get_all_groups. cbv zeta.
  rewrite (bind_done _ _ t (t ++ [Fetch (list_request dm ANone)]) JNull).
  - reflexivity.
  - rewrite get_f_eq. cbv zeta. rewrite requests_of_app.
    change (requests_of [Fetch ?r]) with [r].
    rewrite (get_result_not_modified _ H). reflexivity.
Qed.

Lemma groups_of_listing_silent dm page pages :
  groups_of (listing_trace dm (fun _ => []) page pages) = EGroup <$> concat pages.
Proof.
  revert page. induction pages as [|cs pages IH]; intros page; [reflexivity|].
  cbn [listing_trace concat].
  rewrite !groups_of_app, groups_of_yield_events_silent, IH, fmap_app. reflexivity.
Qed.

Lemma requests_of_listing_silent dm page pages :
  requests_of (listing_trace dm (fun _ => []) page pages)
  = (fun j => list_request dm (AInt j)) <$> seqZ (page + 1) (Z.of_nat (length pages)).
Proof.
  revert page. induction pages as [|cs pages IH]; intros page; [reflexivity|].
  cbn [listing_trace length].
  rewrite !requests_of_app, requests_of_yield_events_silent, IH.
  rewrite (seqZ_cons (page + 1)) by lia.
  replace (Z.pred (Z.of_nat (S (length pages)))) with (Z.of_nat (length pages)) by lia.
  replace (Z.succ (page + 1)) with (page + 1 + 1)%Z by lia.
  reflexivity.
Qed.

(** Against a source that returns the pages of [pages], none empty, and
    then an empty page, the enumeration ends normally, yields the records of
    all the pages in order, and has asked for the first page without page
    number and then for the pages 2, 3, ... up to [length pages + 1]. *)
Theorem enumeration_yields_every_page (dm : bool) (pages : list (list Conversation))
    (fuel : nat) :
  Forall (fun cs => cs <> []) pages ->
  replies_in_order (list_reply dm <$> (pages ++ [[]])) ->
  length pages <= fuel ->
  (get_all_groups fuel dm (fun _ => ret tt) []).2 = Done tt /\
  groups_of (get_all_groups fuel dm (fun _ => ret tt) []).1 = EGroup <$> concat pages /\
  requests_of (get_all_groups fuel dm (fun _ => ret tt) []).1
  = list_request dm ANone
    :: ((fun j => list_request dm (AInt j)) <$> seqZ 2 (Z.of_nat (length pages))).
Proof.
  intros Hne Hscript Hfuel.
  rewrite (get_all_groups_script dm (fun _ => ret tt) (fun _ => []) pages fuel);
    try assumption.
  - cbn [fst snd]. split; [reflexivity|].
    change (Fetch ?r :: ?l) with ([Fetch r] ++ l).
    rewrite groups_of_app, requests_of_app, groups_of_listing_silent,
      requests_of_listing_silent.
    split; reflexivity.
  - intros c t. unfold ret. rewrite app_nil_r. reflexivity.
  - reflexivity.
Qed.

Lemma stdout_of_listing_filtered (p : pattern) (dm : bool) (page : Z)
    (pages : list (list Conversation)) :
  stdout_of (listing_trace dm
               (fun c => if name_matches p c then [Print (conv_id c +:+ newline)] else [])
               page pages)
  = (fun c => conv_id c +:+ newline) <$> List.filter (name_matches p) (concat pages).
Proof.
  revert page. induction pages as [|cs pages IH]; intros page; [reflexivity|].
  cbn [listing_trace concat].
  rewrite !stdout_of_app, IH, List.filter_app, fmap_app. cbn [stdout_of omap list_omap].
  f_equal. clear. induction cs as [|c cs IH]; [reflexivity|].
  cbn [yield_events flat_map List.filter].
  destruct (name_matches p c); cbn; [f_equal|]; exact IH.
Qed.

(** Against a source that returns the pages of [pages], none empty, and
    then an empty page, [get_group] hands to its consumer exactly the ids of
    the conversations whose name the pattern matches, in the order of the
    listing (here the consumer prints each id it is handed). *)
Theorem get_group_hands_out_the_matching_ids (p : pattern) (dm : bool)
    (pages : list (list Conversation)) (fuel : nat) :
  Forall (fun cs => cs <> []) pages ->
  replies_in_order (list_reply dm <$> (pages ++ [[]])) ->
  length pages <= fuel ->
  (get_group fuel (PyPattern p) dm (fun i => print i newline) []).2 = Done tt /\
  stdout_of (get_group fuel (PyPattern p) dm (fun i => print i newline) []).1
  = (fun c => conv_id c +:+ newline) <$> List.filter (name_matches p) (concat pages).
Proof.
  intros Hne Hscript Hfuel. unfold get_group.
  rewrite (get_all_groups_script dm _
             (fun c => if name_matches p c then [Print (conv_id c +:+ newline)] else [])
             pages fuel); try assumption.
  - cbn [fst snd]. split; [reflexivity|].
    change (Fetch ?r :: ?l) with ([Fetch r] ++ l).
    rewrite stdout_of_app. apply stdout_of_listing_filtered.
  - intros c t. unfold name_matches, field_name, field_id, regex_search, bind, ret.
    destruct (re_search p (conv_name c)); [reflexivity|].
    rewrite app_nil_r. reflexivity.
  - intros c. destruct (name_matches p c); reflexivity.
Qed.

End Enumeration.

Lemma not_modified_listing_raises_witness :
  @get_all_groups not_modified_env 1 false (fun _ => ret tt) []
  = ([Fetch (@list_request not_modified_env false ANone)], Raise TypeError).
Proof.
  apply (@not_modified_listing_raises not_modified_env false (fun _ => ret tt) 1 []).
  - reflexivity.
  - lia.
Defined.

Lemma enumeration_yields_every_page_witness :
  (@get_all_groups listing_env 1 false (fun _ => ret tt) []).2 = Done tt /\
  groups_of (@get_all_groups listing_env 1 false (fun _ => ret tt) []).1
  = EGroup <$> two_groups /\
  requests_of (@get_all_groups listing_env 1 false (fun _ => ret tt) []).1
  = [@list_request listing_env false ANone; @list_request listing_env false (AInt 2)].
Proof.
  apply (@enumeration_yields_every_page listing_env false [two_groups] 1).
  - repeat constructor. discriminate.
  - apply scripted_replies_in_order.
  - cbn. lia.
Defined.

Lemma get_group_hands_out_the_matching_ids_witness :
  (@get_group listing_env 1 (PyPattern ["hes"]) false
     (fun i => print i newline) []).2 = Done tt /\
  stdout_of (@get_group listing_env 1 (PyPattern ["hes"]) false
               (fun i => print i newline) []).1
  = ["2" +:+ newline].
Proof.
  apply (@get_group_hands_out_the_matching_ids listing_env ["hes"] false [two_groups] 1).
  - repeat constructor. discriminate.
  - apply scripted_replies_in_order.
  - cbn. lia.
Defined.

(** ** The command line *)

Section CommandLine.
Context `{Env : Environment}.

Lemma scan_argv_no_flag (fuel : nat) (argv : list string) :
  (forall i, ~ list_flag_at argv i) ->
  forall rest j,
    rest = drop j argv ->
    (forall j', j' < j -> argv !! j' <> Some "--") ->
    scan_argv fuel argv j rest = ret tt.
Proof.
  intros Hno. induction rest as [|arg rest IH]; intros j Hrest Hdash; [reflexivity|].
  assert (Harg : argv !! j = Some arg).
  { rewrite <- (Nat.add_0_r j), <- lookup_drop, <- Hrest. reflexivity. }
  rewrite (drop_S _ _ _ Harg) in Hrest. injection Hrest as Hrest.
  cbn [scan_argv].
  destruct (String.eqb_spec arg "--") as [->|Hnd]; [reflexivity|].
  destruct ((String.eqb arg "--list" || String.eqb arg "-l")
            && ((j =? 0) || negb (String.eqb (nth (j - 1) argv "") "--group")))
    eqn:Hcond.
  - exfalso. apply (Hno j).
    apply andb_true_iff in Hcond as [Hflag Hprev].
    split; [|split].
    + apply orb_true_iff in Hflag as [H|H]; apply String.eqb_eq in H; subst; auto.
    + apply orb_true_iff in Hprev as [H|H].
      * left. apply Nat.eqb_eq, H.
      * right. intros Hl. apply negb_true_iff, String.eqb_neq in H. apply H.
        rewrite nth_lookup, Hl. reflexivity.
    + exact Hdash.
  - apply IH; [exact Hrest|].
    intros j' Hj'. destruct (decide (j' = j)) as [->|Hne].
    + rewrite Harg. congruence.
    + apply Hdash. lia.
Qed.

(** When no argument of the command line asks for the listing (none is
    [--list] or [-l] before any [--] and not right after [--group]), the
    first loop of [main] does nothing: no request, no output, no exit.  So a
    command line that the parser rejects ends the run with exit code 2 and
    nothing else. *)
Theorem no_list_flag_no_listing (argv : list string) (fuel : nat) (t : trace) :
  (forall i, ~ list_flag_at argv i) ->
  scan_argv fuel argv 0 argv t = (t, Done tt) /\
  (parse_args argv = None -> main fuel argv t = (t, Raise (SystemExit 2))).
Proof.
  intros Hno.
  assert (Hscan : scan_argv fuel argv 0 argv = ret tt).
  { apply (scan_argv_no_flag fuel argv Hno argv 0 eq_refl). intros j' Hj'. lia. }
  split; [rewrite Hscan; reflexivity|].
  intros Hparse. unfold main. rewrite Hscan, Hparse. reflexivity.
Qed.

(** When the command line does not ask for the listing and the parser
    accepts it, but the alternation of the text fragments is not a regular
    expression, the run ends with [re.error] before any request is sent and
    before anything is printed. *)
Theorem bad_pattern_sends_nothing (argv : list string) (args : Args) (fuel : nat)
    (t : trace) :
  (forall i, ~ list_flag_at argv i) ->
  parse_args argv = Some args ->
  re_compile (String.concat "|" (args_text args)) (flags_of args) = None ->
  main fuel argv t = (t, Raise ReError).
Proof.
  intros Hno Hparse Hbad.
  assert (Hscan : scan_argv fuel argv 0 argv = ret tt).
  { apply (scan_argv_no_flag fuel argv Hno argv 0 eq_refl). intros j' Hj'. lia. }
  unfold main. rewrite Hscan, Hparse.
  rewrite (bind_done _ _ t t tt eq_refl), (bind_done _ _ t t args eq_refl).
  cbv zeta. unfold compile at 1. unfold flags_of in Hbad.
  destruct (re_compile _ _) as [groups|] at 1; [|reflexivity].
  rewrite (bind_done _ _ t t groups eq_refl).
  unfold compile. rewrite Hbad. reflexivity.
Qed.

(** [-C c] is [-A c -B c]: a run in which the parser returns a context size
    is the run in which it returns that size as both the before and the
    after context, whatever sizes [-A] and [-B] gave. *)
Theorem context_option_sets_both_sizes (args : Args) (c : Z) (fuel : nat)
    (argv : list string) (t : trace) :
  args_context args = Some c ->
  @main (with_args args) fuel argv t
  = @main (with_args (spell_out_context args c)) fuel argv t.
Proof.
  intros Hc. unfold main.
  apply bind_ext; [reflexivity|]. intros _ t'.
  cbn [parse_args with_args].
  rewrite (bind_done (ret args) _ t' t' args eq_refl).
  rewrite (bind_done (ret (spell_out_context args c)) _ t' t'
             (spell_out_context args c) eq_refl).
  cbv zeta.
  cbn [spell_out_context args_text args_group args_show_users args_date
       args_ignore_case args_after_context args_before_context args_context
       args_color].
  rewrite Hc. reflexivity.
Qed.

(** With [--color] or [--no-color] on the command line ([args.color] is
    [True] or [False]) the colour mode is the one forced: when the command
    line does not ask for the listing, the parser accepts it and both
    patterns compile, the run is the search of the groups and then of the
    direct conversations with that value as [interactive], for the searches
    and for the printing alike.  And the run does not depend on what
    [os.isatty] answers. *)
Theorem forced_colour_is_the_mode (argv : list string) (args : Args) (c : bool) :
  parse_args argv = Some args ->
  args_color args = Some c ->
  (forall (groups regex : pattern) fuel t,
      (forall i, ~ list_flag_at argv i) ->
      re_compile (String.concat "|" match args_group args with
                                    | None => ["ACM"]
                                    | Some g => g
                                    end) (flags_of args) = Some groups ->
      re_compile (String.concat "|" (args_text args)) (flags_of args) = Some regex ->
      main fuel argv t
      = try_except_KeyboardInterrupt
          (get_group fuel (PyPattern groups) false (fun group =>
             search_messages fuel (PyPattern regex) group false c (fun buffer i =>
               print_message buffer i (args_show_users args) (args_date args)
                 match args_context args with
                 | Some n => n
                 | None => args_before_context args
                 end
                 match args_context args with
                 | Some n => n
                 | None => args_after_context args
                 end c)) ;;
           get_group fuel (PyPattern groups) true (fun user =>
             search_messages fuel (PyList (args_text args)) user true c (fun buffer i =>
               print_message buffer i (args_show_users args) (args_date args)
                 match args_context args with
                 | Some n => n
                 | None => args_before_context args
                 end
                 match args_context args with
                 | Some n => n
                 | None => args_after_context args
                 end c)))
          (print "" newline) t) /\
  (forall tty1 tty2 fuel t,
      @main (with_tty tty1) fuel argv t = @main (with_tty tty2) fuel argv t).
Proof.
  intros Hparse Hc. split.
  - intros groups regex fuel t Hno Hgroups Hregex.
    assert (Hscan : scan_argv fuel argv 0 argv = ret tt).
    { apply (scan_argv_no_flag fuel argv Hno argv 0 eq_refl). intros j' Hj'. lia. }
    unfold main. rewrite Hscan, Hparse.
    rewrite (bind_done _ _ t t tt eq_refl), (bind_done _ _ t t args eq_refl).
    cbv zeta. unfold flags_of in Hgroups, Hregex.
    unfold compile. rewrite Hgroups, Hregex.
    rewrite (bind_done _ _ t t groups eq_refl), (bind_done _ _ t t regex eq_refl).
    rewrite Hc. reflexivity.
  - intros tty1 tty2 fuel t. unfold main.
    apply bind_ext; [reflexivity|]. intros _ t'.
    cbn [parse_args with_tty]. rewrite Hparse.
    rewrite !(bind_done (ret args) _ t' t' args eq_refl).
    cbv zeta. cbn [isatty with_tty]. rewrite Hc. reflexivity.
Qed.

End CommandLine.

Lemma no_list_flag_no_listing_witness :
  @scan_argv listing_env 1 ["grepme"; "--group"; "-l"; "--"; "--list"] 0
     ["grepme"; "--group"; "-l"; "--"; "--list"] [] = ([], Done tt) /\
  @main listing_env 1 ["grepme"; "--group"; "-l"; "--"; "--list"] []
  = ([], Raise (SystemExit 2)).
Proof.
  assert (Hno : forall i, ~ list_flag_at ["grepme"; "--group"; "-l"; "--"; "--list"] i).
  { intros i (Hflag & Hprev & Hdash).
    destruct i as [|[|[|[|[|i]]]]]; cbn in Hflag;
      try (destruct Hflag as [H|H]; discriminate H).
    - destruct Hprev as [H|H]; [discriminate|]. apply H. reflexivity.
    - apply (Hdash 3); [lia|reflexivity]. }
  destruct (@no_list_flag_no_listing listing_env
              ["grepme"; "--group"; "-l"; "--"; "--list"] 1 [] Hno) as [H1 H2].
  split; [exact H1|]. apply H2. reflexivity.
Defined.

Lemma bad_pattern_sends_nothing_witness :
  @main paren_env 3 ["grepme"; "("] [] = ([], Raise ReError).
Proof.
  apply (@bad_pattern_sends_nothing paren_env ["grepme"; "("] args_paren 3 []).
  - intros i (Hflag & _).
    destruct i as [|[|i]]; cbn in Hflag; destruct Hflag as [H|H]; discriminate H.
  - reflexivity.
  - reflexivity.
Defined.

Lemma context_option_sets_both_sizes_witness :
  @main (@with_args (Fake.group_env (fun _ => false)) args_context_one) 3
     ["grepme"; "-C"; "1"; "-A"; "7"; "foo"] []
  = @main (@with_args (Fake.group_env (fun _ => false))
             (spell_out_context args_context_one 1)) 3
      ["grepme"; "-C"; "1"; "-A"; "7"; "foo"] [].
Proof.
  apply (@context_option_sets_both_sizes (Fake.group_env (fun _ => false))
           args_context_one 1%Z).
  reflexivity.
Defined.

(** ** What requests are sent *)

Section Sending.
Context `{Env : Environment}.
Context (Q : request -> Prop).

Lemma sends_silent {A} (m : M A) :
  (forall t, requests_of (m t).1 = requests_of t) -> sends Q m.
Proof. intros H t Ht. rewrite H. exact Ht. Qed.

Lemma sends_ret {A} (a : A) : sends Q (ret a).
Proof. apply sends_silent. reflexivity. Qed.

Lemma sends_raise {A} (e : exn) : sends Q (raise (A:=A) e).
Proof. apply sends_silent. reflexivity. Qed.

Lemma sends_out_of_fuel {A} : sends Q (out_of_fuel (A:=A)).
Proof. apply sends_silent. reflexivity. Qed.

Lemma sends_print (s e : string) : sends Q (print s e).
Proof. apply sends_silent. intros t. cbn. rewrite requests_of_app. apply app_nil_r. Qed.

Lemma sends_yield_match b i : sends Q (emit (YieldMatch b i)).
Proof. apply sends_silent. intros t. cbn. rewrite requests_of_app. apply app_nil_r. Qed.

Lemma sends_yield_group g : sends Q (emit (YieldGroup g)).
Proof. apply sends_silent. intros t. cbn. rewrite requests_of_app. apply app_nil_r. Qed.

Lemma sends_bind {A B} (m : M A) (f : A -> M B) :
  sends Q m -> (forall a, sends Q (f a)) -> sends Q (bind m f).
Proof.
  intros Hm Hf t Ht. specialize (Hm t Ht). unfold bind.
  destruct (m t) as [t' [a|e|]]; cbn [fst snd] in *; try exact Hm.
  apply Hf, Hm.
Qed.

Lemma sends_get u ps :
  Q (mkRequest (GROUPME_API +:+ u) (ps ++ [("token", AStr access_token)])) ->
  sends Q (get u ps).
Proof.
  intros HQ t Ht. rewrite get_eq. cbv zeta. cbn [fst].
  rewrite requests_of_app. apply Forall_app. split; [exact Ht|].
  constructor; [exact HQ|constructor].
Qed.

Lemma sends_get_function (dm : bool) (group : string) (before_id : option string)
    (limit : Z) :
  Q (fetch_request dm group before_id limit) ->
  sends Q (A:=list Message) ((if dm then get_dm else get_messages) group before_id limit).
Proof.
  intros HQ t Ht. rewrite get_function_eq. cbv zeta. cbn [fst].
  rewrite requests_of_app. apply Forall_app. split; [exact Ht|].
  constructor; [exact HQ|constructor].
Qed.

Lemma sends_get_f dm page : Q (list_request dm page) -> sends Q (get_f dm page).
Proof.
  intros HQ t Ht. rewrite get_f_eq. cbv zeta. cbn [fst].
  rewrite requests_of_app. apply Forall_app. split; [exact Ht|].
  constructor; [exact HQ|constructor].
Qed.

Lemma sends_foreach {A} (l : list A) (body : A -> M unit) :
  (forall x, sends Q (body x)) -> sends Q (foreach l body).
Proof.
  intros Hb. induction l as [|x l IH]; cbn [foreach].
  - apply sends_ret.
  - apply sends_bind; [apply Hb|intros _; exact IH].
Qed.

Lemma sends_regex_search regex s : sends Q (regex_search regex s).
Proof. destruct regex; [apply sends_ret|apply sends_raise]. Qed.

Lemma sends_scan_page regex interactive k :
  (forall b i, sends Q (k b i)) ->
  forall rest i buffer, sends Q (scan_page regex interactive k i rest buffer).
Proof.
  intros Hk. induction rest as [|message rest IH]; intros i buffer; cbn [scan_page].
  - apply sends_ret.
  - destruct (msg_text message) as [txt|]; [|apply IH].
    apply sends_bind; [apply sends_regex_search|].
    intros [[start end_]|]; [|apply IH].
    apply sends_bind; [apply sends_yield_match|]. intros _.
    apply sends_bind; [apply Hk|]. intros _. apply IH.
Qed.

Lemma sends_search_messages fuel regex group dm interactive k :
  (forall before_id, Q (fetch_request dm group before_id 100)) ->
  (forall b i, sends Q (k b i)) ->
  sends Q (search_messages fuel regex group dm interactive k).
Proof.
  intros HQ Hk. unfold search_messages. cbv zeta.
  apply sends_bind; [apply sends_get_function, HQ|].
  induction fuel as [|fuel IH]; intros [|m buffer]; cbn [search_loop];
    try apply sends_ret; try apply sends_out_of_fuel.
  apply sends_bind; [apply sends_scan_page, Hk|]. intros buffer1.
  apply sends_bind.
  { destruct (last buffer1); [apply sends_ret|apply sends_raise]. }
  intros last_id.
  apply sends_bind; [apply sends_get_function, HQ|]. exact IH.
Qed.

Lemma sends_field_name g : sends Q (field_name g).
Proof. destruct g; [apply sends_ret|apply sends_raise]. Qed.

Lemma sends_field_id g : sends Q (field_id g).
Proof. destruct g; [apply sends_ret|apply sends_raise]. Qed.

Lemma sends_data dm g : sends Q (data dm g).
Proof.
  destruct dm; [|apply sends_ret].
  destruct g; [apply sends_raise|apply sends_ret].
Qed.

Lemma sends_get_all_groups fuel dm k :
  (forall page, Q (list_request dm page)) ->
  (forall g, sends Q (k g)) -> sends Q (get_all_groups fuel dm k).
Proof.
  intros HQ Hk. unfold get_all_groups. cbv zeta.
  apply sends_bind; [apply sends_get_f, HQ|].
  generalize 1%Z as page.
  induction fuel as [|fuel IH]; intros page response.
  - destruct response as [| | |[|]]; cbn [groups_loop];
      first [apply sends_ret | apply sends_out_of_fuel].
  - assert (Hstep : forall body : M unit,
               sends Q body ->
               sends Q (body ;;
                        response <- get_f dm (AInt (page + 1)) ;;
                        groups_loop fuel dm k (page + 1) response)).
    { intros body Hbody. apply sends_bind; [exact Hbody|]. intros _.
      apply sends_bind; [apply sends_get_f, HQ|]. apply IH. }
    destruct response as [| | |[|x items]]; cbn [groups_loop];
      try (apply Hstep; apply sends_raise).
    + apply sends_ret.
    + apply Hstep. apply sends_foreach. intros group.
      apply sends_bind; [apply sends_data|]. intros g.
      apply sends_bind; [apply sends_yield_group|]. intros _. apply Hk.
Qed.

Lemma sends_get_group fuel regex dm k :
  (forall page, Q (list_request dm page)) ->
  (forall i, sends Q (k i)) -> sends Q (get_group fuel regex dm k).
Proof.
  intros HQ Hk. unfold get_group. apply sends_get_all_groups; [exact HQ|]. intros group.
  apply sends_bind; [apply sends_field_name|]. intros name.
  apply sends_bind; [apply sends_regex_search|].
  intros [span|]; [|apply sends_ret].
  apply sends_bind; [apply sends_field_id|]. exact Hk.
Qed.

Lemma sends_print_message buffer i show_users show_date before after interactive :
  sends Q (print_message buffer i show_users show_date before after interactive).
Proof.
  unfold print_message. apply sends_foreach. intros message.
  repeat first
    [ apply sends_print
    | apply sends_ret
    | apply sends_raise
    | apply sends_bind; [|intros ?]
    | match goal with |- sends Q (if ?b then _ else _) => destruct b end
    | match goal with
      | |- sends Q (match ?x with inl _ => _ | inr _ => _ end) => destruct x
      end ].
Qed.

Lemma sends_try m handler :
  sends Q m -> sends Q handler -> sends Q (try_except_KeyboardInterrupt m handler).
Proof.
  intros Hm Hh t Ht. specialize (Hm t Ht). unfold try_except_KeyboardInterrupt.
  destruct (m t) as [t' [a|e|]]; cbn [fst snd] in *; try exact Hm.
  destruct e; try exact Hm. apply Hh, Hm.
Qed.

Lemma sends_compile s flags : sends Q (compile s flags).
Proof.
  unfold compile. destruct (re_compile s flags); [apply sends_ret|apply sends_raise].
Qed.

Lemma sends_main fuel argv :
  (forall dm group before_id, Q (fetch_request dm group before_id 100)) ->
  (forall dm page, Q (list_request dm page)) ->
  sends Q (main fuel argv).
Proof.
  intros HF HL. unfold main.
  apply sends_bind.
  { generalize 0 as i. generalize argv at 2 as rest.
    induction rest as [|arg rest IH]; intros i; cbn [scan_argv].
    - apply sends_ret.
    - destruct (String.eqb arg "--"); [apply sends_ret|].
      destruct (_ && _); [|apply IH].
      apply sends_bind; [|intros _; apply sends_raise].
      apply sends_get_all_groups; [apply HL|]. intros group.
      apply sends_bind; [apply sends_field_name|]. intros name. apply sends_print. }
  intros _. apply sends_bind.
  { destruct (parse_args argv); [apply sends_ret|apply sends_raise]. }
  intros args. cbv zeta.
  apply sends_bind; [apply sends_compile|]. intros groups.
  apply sends_bind; [apply sends_compile|]. intros regex.
  apply sends_try; [|apply sends_print].
  apply sends_bind; [|intros _];
    (apply sends_get_group; [apply HL|]); intros group;
    (apply sends_search_messages; [apply HF|]); intros buffer i;
    apply sends_print_message.
Qed.

End Sending.

Section Requests.
Context `{Env : Environment}.

(** Every request of a run of the program goes to a url under the GroupMe
    API and carries the access token, as its last parameter. *)
Theorem every_request_is_authenticated (fuel : nat) (argv : list string) :
  Forall authenticated (requests_of (main fuel argv []).1).
Proof.
  apply (sends_main authenticated fuel argv); [| |constructor].
  - intros [] group before_id; split; reflexivity.
  - intros [] page; split; reflexivity.
Qed.

(** A search asks only for messages of the conversation it was given, 100
    at a time, and an enumeration only for pages of the listing of its
    kind, whatever the source answers, as long as the consumer sends no
    request of its own. *)
Theorem generators_query_their_own_resource (fuel : nat) (regex : pyobj pattern)
    (group : string) (dm interactive : bool)
    (k : list Message -> nat -> M unit) (kg : entry -> M unit) :
  (forall b i t, requests_of (k b i t).1 = requests_of t) ->
  (forall g t, requests_of (kg g t).1 = requests_of t) ->
  Forall (fun r => exists before_id, r = fetch_request dm group before_id 100)
         (requests_of (search_messages fuel regex group dm interactive k []).1) /\
  Forall (fun r => exists page, r = list_request dm page)
         (requests_of (get_all_groups fuel dm kg []).1).
Proof.
  intros Hk Hkg. split.
  - apply (sends_search_messages _ fuel regex group dm interactive k); [| |constructor].
    + intros before_id. exists before_id. reflexivity.
    + intros b i. apply sends_silent, Hk.
  - apply (sends_get_all_groups _ fuel dm kg); [| |constructor].
    + intros page. exists page. reflexivity.
    + intros g. apply sends_silent, Hkg.
Qed.

End Requests.

Lemma generators_query_their_own_resource_witness :
  Forall (fun r => exists before_id,
              r = @fetch_request (endless_env true) true "u" before_id 100)
         (requests_of (@search_messages (endless_env true) 2 (PyPattern ["foo"]) "u"
                         true true drain []).1) /\
  Forall (fun r => exists page, r = @list_request (endless_env true) true page)
         (requests_of (@get_all_groups (endless_env true) 2 true (fun _ => ret tt) []).1).
Proof.
  apply (@generators_query_their_own_resource (endless_env true) 2 (PyPattern ["foo"])
           "u" true true drain (fun _ => ret tt)); reflexivity.
Defined.

(** ** More on what is printed and when *)

Section Output.
Context `{Env : Environment}.

(** A message of the window that has no text (an upload) is written as the
    line [None], and [print_message] does not fail on it: this when no date
    is asked for, or when the date of every message of the window can be
    shown (a timestamp that [datetime.utcfromtimestamp] refuses makes
    [print_message] raise instead). *)
Theorem context_without_text_prints_None (buffer : list Message) (i : nat)
    (show_users show_date : bool) (before after : Z) (interactive : bool)
    (t : trace) (m : Message) :
  (show_date = true -> Forall dated (context_window buffer i before after)) ->
  m ∈ context_window buffer i before after ->
  msg_text m = None ->
  Print ("None" +:+ newline)
    ∈ (print_message buffer i show_users show_date before after interactive t).1 /\
  (print_message buffer i show_users show_date before after interactive t).2 = Done tt.
Proof.
  intros Hdates Hm Htxt. rewrite print_message_eq by exact Hdates.
  cbn [fst snd]. split; [|reflexivity].
  apply elem_of_app. right. apply list_elem_of_In, in_flat_map.
  exists m. split; [apply list_elem_of_In, Hm|].
  unfold render_line. rewrite Htxt.
  do 3 (apply in_or_app; right). left. reflexivity.
Qed.

(** With dates asked for, a message of the window whose timestamp
    [datetime.utcfromtimestamp] refuses makes [print_message] raise the
    exception of the conversion; when it is the first message to render,
    nothing has been written. *)
Theorem unshowable_date_aborts_print_message (buffer : list Message) (i : nat)
    (show_users : bool) (before after : Z) (interactive : bool) (t : trace)
    (m : Message) (rest : list Message) (e : exn) :
  context_window buffer i before after = m :: rest ->
  utcfromtimestamp (msg_created_at m) = inl e ->
  print_message buffer i show_users true before after interactive t = (t, Raise e).
Proof.
  intros Hw He. unfold print_message. rewrite Hw. cbn [foreach].
  unfold bind, raise. rewrite He. reflexivity.
Qed.

(** Against a source that returns the pages of [pages], none empty, and
    then an empty page, the events of a search are, in this order: the
    request for the newest page, and then for each page the matches of that
    page followed by the request for the next page.  No page is requested
    before the matches of the page before it have been handed out. *)
Theorem search_interleaves_requests_and_matches (p : pattern) (group : string)
    (dm interactive : bool) (pages : list (list Message)) (fuel : nat) :
  Forall (fun page => page <> []) pages ->
  replies_in_order (page_reply dm <$> (pages ++ [[]])) ->
  length pages <= fuel ->
  search_messages fuel (PyPattern p) group dm interactive drain []
  = (Fetch (fetch_request dm group None 100)
       :: search_trace p dm group interactive (fun _ _ => []) pages, Done tt).
Proof.
  intros Hne Hscript Hfuel.
  apply search_messages_trace; try assumption.
  - intros b i t. unfold drain, ret. rewrite app_nil_r. reflexivity.
  - reflexivity.
Qed.

End Output.

Lemma context_without_text_prints_None_witness :
  Print ("None" +:+ newline)
    ∈ (@print_message far_future_env upload_page 1 true true 1 1 true []).1 /\
  (@print_message far_future_env upload_page 1 true true 1 1 true []).2 = Done tt.
Proof.
  apply (@context_without_text_prints_None far_future_env upload_page 1 true true 1 1 true
           [] (Examples.msg "9" None)).
  - intros _. repeat constructor; eexists; reflexivity.
  - apply list_elem_of_In. vm_compute. auto.
  - reflexivity.
Defined.

Lemma unshowable_date_aborts_print_message_witness :
  @print_message far_future_env [far_future_message] 0 true true 0 0 false []
  = ([], Raise OverflowError).
Proof.
  apply (@unshowable_date_aborts_print_message far_future_env [far_future_message] 0
           true 0 0 false [] far_future_message [] OverflowError); reflexivity.
Defined.

Lemma search_interleaves_requests_and_matches_witness :
  @search_messages (one_page_env false) 1 (PyPattern ["foo"]) "g" false false drain []
  = ([Fetch (@fetch_request (one_page_env false) false "g" None 100);
      YieldMatch Examples.page3 0; YieldMatch Examples.page3 2;
      Fetch (@fetch_request (one_page_env false) false "g" (Some "3") 100)], Done tt).
Proof.
  apply (@search_interleaves_requests_and_matches (one_page_env false) ["foo"] "g"
           false false [Examples.page3] 1).
  - repeat constructor. discriminate.
  - apply scripted_replies_in_order.
  - cbn. lia.
Defined.

(** ** Colour and results *)

Section Colour.
Context `{Env : Environment}.

Lemma requests_of_search_trace_silent p dm group interactive pages :
  requests_of (search_trace p dm group interactive (fun _ _ => []) pages)
  = (fun P => fetch_request dm group (cursor_of P) 100) <$> pages.
Proof.
  induction pages as [|P pages IH]; [reflexivity|].
  cbn [search_trace].
  rewrite !requests_of_app, requests_of_scan_events, IH by reflexivity.
  reflexivity.
Qed.

Lemma indices_of_search_trace_silent p dm group interactive pages :
  snd <$> matches_of (search_trace p dm group interactive (fun _ _ => []) pages)
  = flat_map (matches_from p 0) pages.
Proof.
  rewrite matches_of_search_trace_silent.
  induction pages as [|P pages IH]; [reflexivity|].
  cbn [flat_map]. rewrite fmap_app, IH. f_equal.
  rewrite <- list_fmap_compose. apply list_fmap_id.
Qed.

(** Colour changes nothing of what a search finds or asks for: against a
    source that returns the pages of [pages], none empty, and then an empty
    page, the search with colour and the search without send the same
    requests and hand out the same indices, in the same order. *)
Theorem colour_changes_no_result (p : pattern) (group : string) (dm : bool)
    (pages : list (list Message)) (fuel : nat) :
  Forall (fun page => page <> []) pages ->
  replies_in_order (page_reply dm <$> (pages ++ [[]])) ->
  length pages <= fuel ->
  requests_of (search_messages fuel (PyPattern p) group dm true drain []).1
  = requests_of (search_messages fuel (PyPattern p) group dm false drain []).1 /\
  snd <$> matches_of (search_messages fuel (PyPattern p) group dm true drain []).1
  = snd <$> matches_of (search_messages fuel (PyPattern p) group dm false drain []).1.
Proof.
  intros Hne Hscript Hfuel.
  assert (Hdrain : forall b i t, drain b i t = (t ++ [], Done tt))
    by (intros b i t; unfold drain, ret; rewrite app_nil_r; reflexivity).
  rewrite !(search_messages_trace p group dm _ drain (fun _ _ => []) pages fuel
              Hdrain (fun _ _ => eq_refl) Hne Hscript Hfuel).
  cbn [fst]. change (Fetch ?r :: ?l) with ([Fetch r] ++ l).
  rewrite !requests_of_app, !matches_of_app, !fmap_app.
  rewrite !requests_of_search_trace_silent, !indices_of_search_trace_silent.
  split; reflexivity.
Qed.

End Colour.

Lemma colour_changes_no_result_witness :
  requests_of (@search_messages (one_page_env false) 1 (PyPattern ["ba"]) "g" false true
                 drain []).1
  = requests_of (@search_messages (one_page_env false) 1 (PyPattern ["ba"]) "g" false
                   false drain []).1 /\
  snd <$> matches_of (@search_messages (one_page_env false) 1 (PyPattern ["ba"]) "g"
                        false true drain []).1
  = snd <$> matches_of (@search_messages (one_page_env false) 1 (PyPattern ["ba"]) "g"
                          false false drain []).1.
Proof.
  apply (@colour_changes_no_result (one_page_env false) ["ba"] "g" false
           [Examples.page3] 1).
  - repeat constructor. discriminate.
  - apply scripted_replies_in_order.
  - cbn. lia.
Defined.

Lemma forced_colour_is_the_mode_witness :
  stdout_of (@main (Stub.env (Fake.groupme [Fake.acm] [] Fake.hello [])
                      (Some Fake.args_foo_color) (fun _ => false))
               3 ["grepme"; "--color"; "foo"] []).1
  = [PURPLE; "bob: "; RESET; "a " +:+ RED +:+ "foo" +:+ RESET +:+ " b" +:+ newline].
Proof.
  rewrite (proj1 (@forced_colour_is_the_mode
                    (Stub.env (Fake.groupme [Fake.acm] [] Fake.hello [])
                       (Some Fake.args_foo_color) (fun _ => false))
                    ["grepme"; "--color"; "foo"] Fake.args_foo_color true
                    eq_refl eq_refl)
             ["ACM"] ["foo"] 3 []).
  - reflexivity.
  - intros i (Hflag & _).
    destruct i as [|[|[|i]]]; cbn in Hflag; destruct Hflag as [H|H]; discriminate H.
  - reflexivity.
  - reflexivity.
Defined.
